(** * Multi-modal relevancy evaluator

    A shallow embedding of [llama_index/evaluation/multi_modal/relevancy.py]:
    the class [MultiModalRelevancyEvaluator] with its prompt accessors and
    its two entry points [evaluate] and [aevaluate].

    Python text is modelled by [string]; [None]-able arguments by [option];
    dictionaries by stdpp's [gmap]; the float score by a primitive [float].
    Calls into collaborators (the directory reader, the node parser and the
    multi-modal model) are recorded, in order, in the trace a run produces,
    and the model backend carries a state of its own that each completion
    may change. *)

From Stdlib Require Import Floats Ascii String.
From stdpp Require Import base strings gmap list.

Local Open Scope string_scope.
Local Open Scope list_scope.

(** stdpp keeps [simpl] from unfolding string concatenation; the proofs
    below compute with it on strings that start with known characters. *)
#[local] Arguments String.append !s1 s2 : simpl nomatch.

(** ** Python strings *)

Definition nl : string := String "010"%char EmptyString.

(** [sep.join(l)] *)
Fixpoint join (sep : string) (l : list string) : string :=
  match l with
  | [] => ""
  | [x] => x
  | x :: rest => x +:+ sep +:+ join sep rest
  end.

(** One character of [str.lower]: the letters [A]..[Z] move to [a]..[z],
    every other character of the byte range is kept. (Outside ASCII,
    [str.lower] changes letters too, but never into [y], [e] or [s].) *)
Definition lower_char (c : ascii) : ascii :=
  let n := nat_of_ascii c in
  if (65 <=? n)%nat && (n <=? 90)%nat then ascii_of_nat (n + 32) else c.

(** [s.lower()] *)
Fixpoint lower (s : string) : string :=
  match s with
  | EmptyString => EmptyString
  | String c s' => String (lower_char c) (lower s')
  end.

(** [sub in s] on strings: [sub] occurs in [s] as a contiguous substring. *)
Fixpoint str_in (sub s : string) : bool :=
  String.prefix sub s ||
  match s with
  | EmptyString => false
  | String _ s' => str_in sub s'
  end.

(** ** Exceptions and outcomes *)

Inductive Exception :=
| ValueError (msg : string)
| UnboundLocalError (name : string)
| TypeError
| UpstreamError (descr : string).

Inductive outcome (A : Type) :=
| Ok (a : A)
| Raise (e : Exception).
Arguments Ok {A} a.
Arguments Raise {A} e.

(** ** Collaborator interfaces *)

(** [BasePromptTemplate]: an object with a [format] method, called here with
    the keyword arguments [context_str] and [query_str]. *)
Record BasePromptTemplate := {
  format : forall (context_str query_str : string), outcome string
}.

(** [PromptDictType] *)
Abbreviation PromptDictType := (gmap string BasePromptTemplate).

(** [EvaluationResult], with the fields the evaluator fills. *)
Module EvaluationResult.
Record t := mk {
  query : string;
  response : string;
  passing : bool;
  score : float;
  feedback : string
}.
End EvaluationResult.

Section Evaluator.

(** Documents read from an image file, the nodes parsed from them, the
    completion object of the model, the state of the model backend, and
    the values of surplus keyword arguments. *)
Context {Document ImageNode CompletionResponse Backend Any : Type}.

(** [str(response_obj)] *)
Variable str : CompletionResponse -> string.
(** [SimpleDirectoryReader(input_files=[image_path]).load_data()] *)
Variable load_data : string -> outcome (list Document).
(** [SimpleNodeParser.from_defaults().get_nodes_from_documents(docs)] *)
Variable get_nodes_from_documents : list Document -> outcome (list ImageNode).

(** [MultiModalLLM]: the blocking and the awaitable completion. *)
Record MultiModalLLM := {
  complete : forall (prompt : string) (image_documents : list ImageNode),
      Backend -> outcome CompletionResponse * Backend;
  acomplete : forall (prompt : string) (image_documents : list ImageNode),
      Backend -> outcome CompletionResponse * Backend
}.

Record MultiModalRelevancyEvaluator := {
  _multi_modal_llm : MultiModalLLM;
  _raise_error : bool;
  _eval_template : BasePromptTemplate;
  _refine_template : BasePromptTemplate
}.

(** *** Calls made to collaborators, with what they returned *)

Inductive Event :=
| LoadData (image_path : string) (res : outcome (list Document))
| GetNodes (docs : list Document) (res : outcome (list ImageNode))
| Complete (prompt : string) (image_documents : list ImageNode)
    (res : outcome CompletionResponse)
| AComplete (prompt : string) (image_documents : list ImageNode)
    (res : outcome CompletionResponse).

(** *** The monad of a method body: backend state, exceptions, trace *)

Definition M (A : Type) : Type := Backend -> outcome A * Backend * list Event.

Definition ret {A} (a : A) : M A := fun b => (Ok a, b, []).

Definition raise {A} (e : Exception) : M A := fun b => (Raise e, b, []).

Definition bind {A B} (m : M A) (k : A -> M B) : M B := fun b =>
  match m b with
  | (Ok a, b1, t1) => let '(r, b2, t2) := k a b1 in (r, b2, t1 ++ t2)
  | (Raise e, b1, t1) => (Raise e, b1, t1)
  end.

(** A pure computation that may raise, outside the collaborators. *)
Definition lift {A} (r : outcome A) : M A := fun b => (r, b, []).

(** A call to a collaborator without state, recorded in the trace. *)
Definition call {A} (ev : outcome A -> Event) (r : outcome A) : M A :=
  fun b => (r, b, [ev r]).

(** A call to the model backend, recorded in the trace. *)
Definition call_llm {A} (ev : outcome A -> Event)
    (f : Backend -> outcome A * Backend) : M A :=
  fun b => let '(r, b') := f b in (r, b', [ev r]).

(** Reading a local variable that may not have been assigned. *)
Definition read_local {A} (name : string) (v : option A) : M A :=
  match v with
  | Some x => ret x
  | None => raise (UnboundLocalError name)
  end.

Notation "x <- m ;; k" := (bind m (fun x => k))
  (at level 100, m at next level, right associativity).

(** *** Prompt accessors *)

Definition _get_prompts (self : MultiModalRelevancyEvaluator)
    : PromptDictType :=
  {[ "eval_template" := _eval_template self;
     "refine_template" := _refine_template self ]}.

Definition _update_prompts (self : MultiModalRelevancyEvaluator)
    (prompts : PromptDictType) : MultiModalRelevancyEvaluator :=
  let self :=
    match prompts !! "eval_template" with
    | Some t =>
        {| _multi_modal_llm := _multi_modal_llm self;
           _raise_error := _raise_error self;
           _eval_template := t;
           _refine_template := _refine_template self |}
    | None => self
    end in
  match prompts !! "refine_template" with
  | Some t =>
      {| _multi_modal_llm := _multi_modal_llm self;
         _raise_error := _raise_error self;
         _eval_template := _eval_template self;
         _refine_template := t |}
  | None => self
  end.

(** *** evaluate *)

(** [context_str = "\n\n".join(contexts)] *)
Definition context_str (contexts : list string) : string :=
  join (nl +:+ nl) contexts.

(** [evaluation_query_str = f"Question: {query}\nResponse: {response}"] *)
Definition evaluation_query_str (query response : string) : string :=
  "Question: " +:+ query +:+ nl +:+ "Response: " +:+ response.

(** The loop [for image_path in image_paths: image_documents += ...]. *)
Fixpoint for_image_path (image_paths : list string)
    (image_documents : list Document) : M (list Document) :=
  match image_paths with
  | [] => ret image_documents
  | image_path :: rest =>
      docs <- call (LoadData image_path) (load_data image_path);;
      for_image_path rest (image_documents ++ docs)
  end.

(** Lines 118-125: [image_documents] starts empty; [image_nodes] is
    assigned only in the branch taken for a non-empty [image_paths]. *)
Definition load_image_nodes (image_paths : option (list string))
    : M (option (list ImageNode)) :=
  match image_paths with
  | Some ((_ :: _) as image_paths) =>
      image_documents <- for_image_path image_paths [];;
      image_nodes <- call (GetNodes image_documents)
                       (get_nodes_from_documents image_documents);;
      ret (Some image_nodes)
  | _ => ret None
  end.

(** Lines 134-139. *)
Definition verdict (self : MultiModalRelevancyEvaluator)
    (raw_response_txt : string) : M bool :=
  if str_in "yes" (lower raw_response_txt) then ret true
  else if _raise_error self then raise (ValueError "The response is invalid")
  else ret false.

(** Lines 97-147. [kwargs] is deleted on entry and [image_urls] is never
    read. Reading [image_nodes] for the call at line 129 comes before the
    call itself. *)
Definition evaluate (self : MultiModalRelevancyEvaluator)
    (query response : option string) (contexts : option (list string))
    (image_paths image_urls : option (list string))
    (kwargs : gmap string Any) : M EvaluationResult.t :=
  match query, contexts, response with
  | Some query, Some contexts, Some response =>
      fmt_prompt <- lift (format (_eval_template self)
                            (context_str contexts)
                            (evaluation_query_str query response));;
      image_nodes <- load_image_nodes image_paths;;
      image_nodes <- read_local "image_nodes" image_nodes;;
      response_obj <- call_llm (Complete fmt_prompt image_nodes)
                        (complete (_multi_modal_llm self)
                           fmt_prompt image_nodes);;
      let raw_response_txt := str response_obj in
      passing <- verdict self raw_response_txt;;
      ret (EvaluationResult.mk query response passing
             (if passing then 1.0%float else 0.0%float) raw_response_txt)
  | _, _, _ =>
      raise (ValueError "query, contexts, and response must be provided")
  end.

(** Lines 149-199: the same body, awaiting [acomplete]. *)
Definition aevaluate (self : MultiModalRelevancyEvaluator)
    (query response : option string) (contexts : option (list string))
    (image_paths image_urls : option (list string))
    (kwargs : gmap string Any) : M EvaluationResult.t :=
  match query, contexts, response with
  | Some query, Some contexts, Some response =>
      fmt_prompt <- lift (format (_eval_template self)
                            (context_str contexts)
                            (evaluation_query_str query response));;
      image_nodes <- load_image_nodes image_paths;;
      image_nodes <- read_local "image_nodes" image_nodes;;
      response_obj <- call_llm (AComplete fmt_prompt image_nodes)
                        (acomplete (_multi_modal_llm self)
                           fmt_prompt image_nodes);;
      let raw_response_txt := str response_obj in
      passing <- verdict self raw_response_txt;;
      ret (EvaluationResult.mk query response passing
             (if passing then 1.0%float else 0.0%float) raw_response_txt)
  | _, _, _ =>
      raise (ValueError "query, contexts, and response must be provided")
  end.

(** *** Calling the entry points with surplus keywords *)





(** *** Vocabulary of the properties *)

(** The events of the image pipeline (reader and node parser). *)
Definition ingestion (ev : Event) : Prop :=
  match ev with
  | LoadData _ _ | GetNodes _ _ => True
  | Complete _ _ _ | AComplete _ _ _ => False
  end.

(** The last collaborator call of a run was the blocking completion, and the
    model answered with an object whose text is [raw]. *)
Definition model_said (evs : list Event) (raw : string) : Prop :=
  match last evs with
  | Some (Complete _ _ (Ok response_obj)) => str response_obj = raw
  | _ => False
  end.

(** A trace read with every awaitable completion as a blocking one. *)
Definition as_blocking (ev : Event) : Event :=
  match ev with
  | AComplete prompt image_documents res => Complete prompt image_documents res
  | _ => ev
  end.

(** A model whose answer is a function of the prompt and the image nodes,
    whatever state its backend is in. *)
Definition deterministic (llm : MultiModalLLM) : Prop :=
  forall prompt image_documents b b',
    (complete llm prompt image_documents b).1
    = (complete llm prompt image_documents b').1.

(** The awaitable completion answers as the blocking one does. *)
Definition same_answers (llm : MultiModalLLM) : Prop :=
  forall prompt image_documents b,
    acomplete llm prompt image_documents b
    = complete llm prompt image_documents b.

End Evaluator.

Arguments MultiModalLLM : clear implicits.
Arguments MultiModalRelevancyEvaluator : clear implicits.
Arguments Event : clear implicits.
Arguments M : clear implicits.

(** ** Case-insensitive occurrence of "yes", stated on the raw text *)

(** Three consecutive characters of [raw] are [y] or [Y], then [e] or [E],
    then [s] or [S]. *)
Definition contains_yes_ci (raw : string) : Prop :=
  exists (pre post : string) (a b c : ascii),
    raw = pre +:+ String a (String b (String c post))
    /\ (a = "y"%char \/ a = "Y"%char)
    /\ (b = "e"%char \/ b = "E"%char)
    /\ (c = "s"%char \/ c = "S"%char).

(** ** Snippets separated by a blank line, stated on the list *)

(** The first snippet as it is, every later one behind two newlines. *)
Definition blank_line_separated (snippets : list string) : string :=
  match snippets with
  | [] => ""
  | first :: later =>
      first +:+ String.concat "" (map (fun s => nl +:+ nl +:+ s) later)
  end.

(** ** A stub environment

    Documents and nodes are the paths they come from, the completion object
    is its text, and the backend counts the completions it served. *)

Definition stub_load_data (image_path : string) : outcome (list string) :=
  Ok [image_path].

Definition stub_get_nodes (docs : list string) : outcome (list string) :=
  Ok docs.

Definition stub_llm (answer : string) : MultiModalLLM string string nat :=
  {| complete := fun _ _ served => (Ok answer, S served);
     acomplete := fun _ _ served => (Ok answer, S served) |}.

Definition stub_template : BasePromptTemplate :=
  {| format := fun context_str query_str =>
       Ok (query_str +:+ nl +:+ context_str) |}.

Definition other_template : BasePromptTemplate :=
  {| format := fun context_str query_str => Ok context_str |}.

Definition stub_evaluator (answer : string) (raise_error : bool)
    : MultiModalRelevancyEvaluator string string nat :=
  {| _multi_modal_llm := stub_llm answer;
     _raise_error := raise_error;
     _eval_template := stub_template;
     _refine_template := stub_template |}.

(** [evaluate] and [aevaluate] in the stub environment. *)
Definition stub_evaluate (self : MultiModalRelevancyEvaluator string string nat)
    (query response : option string) (contexts : option (list string))
    (image_paths : option (list string)) :=
  evaluate (Any := nat) id stub_load_data stub_get_nodes
    self query response contexts image_paths None ∅.

Definition stub_aevaluate (self : MultiModalRelevancyEvaluator string string nat)
    (query response : option string) (contexts : option (list string))
    (image_paths : option (list string)) :=
  aevaluate (Any := nat) id stub_load_data stub_get_nodes
    self query response contexts image_paths None ∅.

(** ** Construction *)

(** The text of [DEFAULT_EVAL_TEMPLATE] (lines 14-23). A backslash at the
    end of a line inside a literal joins the next line to it, indentation
    included. *)
Definition DEFAULT_EVAL_TEMPLATE_str : string :=
  "Your task is to evaluate if the response for the query     is in line with the images and textual context information provided." +:+ nl +:+
  "You have two options to answer. Either YES/ NO." +:+ nl +:+
  "Answer - YES, if the response for the query     is in line with context information otherwise NO." +:+ nl +:+
  "Query and Response: " +:+ nl +:+
  " {query_str}" +:+ nl +:+
  "Context: " +:+ nl +:+
  " {context_str}" +:+ nl +:+
  "Answer: ".

(** The text of [DEFAULT_REFINE_TEMPLATE] (lines 25-37). *)
Definition DEFAULT_REFINE_TEMPLATE_str : string :=
  "We want to understand if the following query and response isin line with the context information: " +:+ nl +:+
  " {query_str}" +:+ nl +:+
  "We have provided an existing YES/NO answer: " +:+ nl +:+
  " {existing_answer}" +:+ nl +:+
  "We have the opportunity to refine the existing answer (only if needed) with some more context below." +:+ nl +:+
  "------------" +:+ nl +:+
  "{context_msg}" +:+ nl +:+
  "------------" +:+ nl +:+
  "If the existing answer was already YES, still answer YES. If the information is present in the new context, answer YES. Otherwise answer NO." +:+ nl.

Section Construction.

Context {ImageNode CompletionResponse Backend : Type}.

(** [PromptTemplate(template)] *)
Variable PromptTemplate : string -> BasePromptTemplate.
(** [OpenAIMultiModal(model=..., max_new_tokens=...)] *)
Variable OpenAIMultiModal :
  string -> nat -> outcome (MultiModalLLM ImageNode CompletionResponse Backend).
(** [bool(x)] of a model object and of a template object, as [or] tests it. *)
Variable llm_bool : MultiModalLLM ImageNode CompletionResponse Backend -> bool.
Variable template_bool : BasePromptTemplate -> bool.

Definition DEFAULT_EVAL_TEMPLATE : BasePromptTemplate :=
  PromptTemplate DEFAULT_EVAL_TEMPLATE_str.

Definition DEFAULT_REFINE_TEMPLATE : BasePromptTemplate :=
  PromptTemplate DEFAULT_REFINE_TEMPLATE_str.

(** Lines 72-75 and 78-81: a string is wrapped; otherwise [template or
    default]. *)
Definition resolve_template (template : option (string + BasePromptTemplate))
    (default : BasePromptTemplate) : BasePromptTemplate :=
  match template with
  | Some (inl text) => PromptTemplate text
  | Some (inr t) => if template_bool t then t else default
  | None => default
  end.

(** Lines 58-81. The default model is built only when [multi_modal_llm] is
    [None] or false. *)
Definition __init__
    (multi_modal_llm : option (MultiModalLLM ImageNode CompletionResponse Backend))
    (raise_error : bool)
    (eval_template refine_template : option (string + BasePromptTemplate))
    : outcome (MultiModalRelevancyEvaluator ImageNode CompletionResponse Backend) :=
  let default_llm := OpenAIMultiModal "gpt-4-vision-preview" 1000 in
  let llm :=
    match multi_modal_llm with
    | Some llm => if llm_bool llm then Ok llm else default_llm
    | None => default_llm
    end in
  match llm with
  | Ok llm =>
      Ok {| _multi_modal_llm := llm;
            _raise_error := raise_error;
            _eval_template := resolve_template eval_template DEFAULT_EVAL_TEMPLATE;
            _refine_template :=
              resolve_template refine_template DEFAULT_REFINE_TEMPLATE |}
  | Raise e => Raise e
  end.

End Construction.

(** ** More vocabulary *)

(** The trace of reading [image_paths] one after the other, the i-th path
    giving the i-th list of documents. *)
Definition loaded {Document ImageNode CompletionResponse : Type}
    (image_paths : list string) (docss : list (list Document))
    : list (Event Document ImageNode CompletionResponse) :=
  zip_with (fun image_path docs => LoadData image_path (Ok docs))
    image_paths docss.

(** The reader answers the i-th path with the i-th list of documents. *)
Definition reads {Document : Type}
    (load_data : string -> outcome (list Document))
    (image_paths : list string) (docss : list (list Document)) : Prop :=
  Forall2 (fun image_path docs => load_data image_path = Ok docs)
    image_paths docss.

(** The last collaborator call of a run was the awaited completion, and the
    model answered with an object whose text is [raw]. *)
Definition model_said_async {Document ImageNode CompletionResponse : Type}
    (str : CompletionResponse -> string)
    (evs : list (Event Document ImageNode CompletionResponse))
    (raw : string) : Prop :=
  match last evs with
  | Some (AComplete _ _ (Ok response_obj)) => str response_obj = raw
  | _ => False
  end.

(** The two keys of the prompt mapping. *)
Definition prompt_key (k : string) : Prop :=
  k = "eval_template" \/ k = "refine_template".

(** ** More of the stub environment *)

(** A reader that finds every file but ["missing.png"]. *)
Definition flaky_load_data (image_path : string) : outcome (list string) :=
  if String.eqb image_path "missing.png"
  then Raise (UpstreamError "no such file")
  else Ok [image_path; image_path +:+ "#2"].

Definition failing_get_nodes (docs : list string) : outcome (list string) :=
  Raise (UpstreamError "cannot parse").

(** A model that is out of service, and counts the attempts. *)
Definition failing_llm : MultiModalLLM string string nat :=
  {| complete := fun _ _ served => (Raise (UpstreamError "rate limit"), S served);
     acomplete := fun _ _ served => (Raise (UpstreamError "rate limit"), S served) |}.

(** A template with a slot the evaluator does not fill. *)
Definition failing_template : BasePromptTemplate :=
  {| format := fun _ _ => Raise (UpstreamError "missing slot") |}.

(** [PromptTemplate] for the stub environment: the text in front of the
    query string and the context. *)
Definition stub_PromptTemplate (text : string) : BasePromptTemplate :=
  {| format := fun context_str query_str =>
       Ok (text +:+ query_str +:+ context_str) |}.

Definition stub_OpenAIMultiModal (model : string) (max_new_tokens : nat)
    : outcome (MultiModalLLM string string nat) :=
  if String.eqb model "gpt-4-vision-preview"
  then Ok (stub_llm "YES") else Raise (UpstreamError "unknown model").

Definition no_api_key (model : string) (max_new_tokens : nat)
    : outcome (MultiModalLLM string string nat) :=
  Raise (UpstreamError "no API key").

(** * Properties *)

(** ** Strings *)

Lemma append_assoc (s1 s2 s3 : string) :
  (s1 +:+ s2) +:+ s3 = s1 +:+ (s2 +:+ s3).
Proof. induction s1 as [|c s1 IH]; simpl; [reflexivity | f_equal; exact IH]. Qed.

Lemma prefix_occurs (sub s : string) :
  String.prefix sub s = true <-> exists post, s = sub +:+ post.
Proof.
  revert sub. induction s as [|c s IH]; intros [|d sub]; simpl.
  - split; [exists ""; reflexivity | reflexivity].
  - split; [discriminate | intros [post [=]]].
  - split; [eexists; reflexivity | reflexivity].
  - destruct (ascii_dec d c) as [->|Hne].
    + rewrite IH. split; intros [post Hpost]; exists post; congruence.
    + split; [discriminate | intros [post [=]]; congruence].
Qed.

(** Python's [sub in s]: some split of [s] has [sub] in the middle. *)
Lemma str_in_occurs (sub s : string) :
  str_in sub s = true <-> exists pre post, s = pre +:+ sub +:+ post.
Proof.
  induction s as [|c s IH].
  - change (str_in sub "") with (String.prefix sub "" || false).
    rewrite orb_true_iff, prefix_occurs. split.
    + intros [[post Hpost] | [=]]. exists "", post. exact Hpost.
    + intros (pre & post & Hs). left. destruct pre; [by exists post |].
      discriminate.
  - change (str_in sub (String c s))
      with (String.prefix sub (String c s) || str_in sub s).
    rewrite orb_true_iff, prefix_occurs, IH. split.
    + intros [[post Hpost] | (pre & post & Hs)].
      * exists "", post. exact Hpost.
      * exists (String c pre), post. simpl. by rewrite Hs.
    + intros (pre & post & Hs). destruct pre as [|d pre]; simpl in Hs.
      * left. by exists post.
      * right. exists pre, post. congruence.
Qed.

Lemma lower_append (s1 s2 : string) :
  lower (s1 +:+ s2) = lower s1 +:+ lower s2.
Proof. induction s1 as [|c s1 IH]; simpl; [reflexivity | f_equal; exact IH]. Qed.

(** A split of [lower s] comes from a split of [s]. *)
Lemma lower_split (s x y : string) :
  lower s = x +:+ y ->
  exists s1 s2, s = s1 +:+ s2 /\ lower s1 = x /\ lower s2 = y.
Proof.
  revert s. induction x as [|d x IH]; intros s Hs; simpl in Hs.
  - exists "", s. auto.
  - destruct s as [|c s]; [discriminate |]. simpl in Hs.
    injection Hs as Hc Hrest. destruct (IH _ Hrest) as (s1 & s2 & -> & <- & <-).
    exists (String c s1), s2. simpl. rewrite Hc. auto.
Qed.

Lemma lower_char_y (a : ascii) :
  lower_char a = "y"%char <-> a = "y"%char \/ a = "Y"%char.
Proof.
  split; [| intros [-> | ->]; reflexivity].
  destruct a as [[] [] [] [] [] [] [] []]; vm_compute; intros [=]; auto.
Qed.

Lemma lower_char_e (a : ascii) :
  lower_char a = "e"%char <-> a = "e"%char \/ a = "E"%char.
Proof.
  split; [| intros [-> | ->]; reflexivity].
  destruct a as [[] [] [] [] [] [] [] []]; vm_compute; intros [=]; auto.
Qed.

Lemma lower_char_s (a : ascii) :
  lower_char a = "s"%char <-> a = "s"%char \/ a = "S"%char.
Proof.
  split; [| intros [-> | ->]; reflexivity].
  destruct a as [[] [] [] [] [] [] [] []]; vm_compute; intros [=]; auto.
Qed.

(** Line 134, [if "yes" in raw_response_txt.lower()], read on the raw text. *)
Lemma yes_in_lower (raw : string) :
  str_in "yes" (lower raw) = true <-> contains_yes_ci raw.
Proof.
  rewrite str_in_occurs. split.
  - intros (pre & post & Hlow).
    destruct (lower_split _ _ _ Hlow) as (s1 & s2 & -> & <- & Hs2).
    destruct s2 as [|a [|b [|c s2]]]; try discriminate. simpl in Hs2.
    injection Hs2 as Ha Hb Hc _.
    exists s1, s2, a, b, c. split; [reflexivity |].
    by rewrite <- lower_char_y, <- lower_char_e, <- lower_char_s.
  - intros (pre & post & a & b & c & -> & Ha & Hb & Hc).
    apply lower_char_y in Ha. apply lower_char_e in Hb. apply lower_char_s in Hc.
    exists (lower pre), (lower post). rewrite lower_append. simpl.
    by rewrite Ha, Hb, Hc.
Qed.

(** ** Runs of the image pipeline *)

Section Runs.

Context {Document ImageNode CompletionResponse Backend Any : Type}.
Variable str : CompletionResponse -> string.
Variable load_data : string -> outcome (list Document).
Variable get_nodes_from_documents : list Document -> outcome (list ImageNode).

Abbreviation Ev := (Event Document ImageNode CompletionResponse).
Abbreviation Evaluator' :=
  (MultiModalRelevancyEvaluator ImageNode CompletionResponse Backend).

(** The loop over the paths never touches the backend, and records nothing
    but calls to the reader. *)
Lemma for_image_path_run (image_paths : list string) :
  forall image_documents : list Document,
  exists (r : outcome (list Document)) (evs : list Ev),
    (forall b : Backend,
        for_image_path (ImageNode := ImageNode) load_data
          image_paths image_documents b = (r, b, evs))
    /\ Forall ingestion evs.
Proof.
  induction image_paths as [|image_path rest IH]; intros image_documents.
  - exists (Ok image_documents), []. split; [reflexivity | constructor].
  - simpl. unfold bind, call.
    destruct (load_data image_path) as [docs | e].
    + destruct (IH (image_documents ++ docs)) as (r & evs & Hrun & Hevs).
      exists r, (LoadData image_path (Ok docs) :: evs). split.
      * intros b. by rewrite Hrun.
      * constructor; [exact I | exact Hevs].
    + exists (Raise e), [LoadData image_path (Raise e)]. split.
      * reflexivity.
      * repeat constructor.
Qed.

(** So does the whole of lines 118-125. *)
Lemma load_image_nodes_run (image_paths : option (list string)) :
  exists (r : outcome (option (list ImageNode))) (evs : list Ev),
    (forall b : Backend,
        load_image_nodes load_data get_nodes_from_documents image_paths b
        = (r, b, evs))
    /\ Forall ingestion evs.
Proof.
  destruct image_paths as [[|image_path rest]|];
    try (exists (Ok None), []; split; [reflexivity | constructor]).
  unfold load_image_nodes.
  destruct (for_image_path_run (image_path :: rest) [])
    as (r & evs & Hrun & Hevs).
  destruct r as [docs | e].
  - destruct (get_nodes_from_documents docs) as [nodes | e] eqn:Hnodes.
    + exists (Ok (Some nodes)), (evs ++ [GetNodes docs (Ok nodes)]). split.
      * intros b. unfold bind, call, ret. rewrite Hrun, Hnodes. reflexivity.
      * apply Forall_app. split; [exact Hevs | repeat constructor].
    + exists (Raise e), (evs ++ [GetNodes docs (Raise e)]). split.
      * intros b. unfold bind, call, ret. rewrite Hrun, Hnodes. reflexivity.
      * apply Forall_app. split; [exact Hevs | repeat constructor].
  - exists (Raise e), evs. split; [| exact Hevs].
    intros b. unfold bind. rewrite Hrun. reflexivity.
Qed.

(** Without image paths nothing is loaded and [image_nodes] stays unbound. *)
Lemma load_image_nodes_no_paths (image_paths : option (list string)) (b : Backend) :
  image_paths = None \/ image_paths = Some [] ->
  load_image_nodes load_data get_nodes_from_documents image_paths b
  = (Ok None, b, @nil Ev).
Proof. intros [-> | ->]; reflexivity. Qed.

(** A trace of the image pipeline does not end with an answer of the model. *)
Lemma ingestion_not_said (evs : list Ev) (raw : string) :
  Forall ingestion evs -> ~ model_said str evs raw.
Proof.
  unfold model_said. intros Hevs Hsaid.
  destruct (last evs) as [ev|] eqn:Hlast; [| exact Hsaid].
  apply last_Some in Hlast as [evs' ->].
  apply Forall_app in Hevs as [_ Hev]. inversion_clear Hev as [|? ? Hing _].
  destruct ev as [| | ? ? [|] | ]; simpl in Hing; contradiction.
Qed.

(** Reading a trace as blocking leaves the image pipeline's events alone. *)
Lemma as_blocking_ingestion (evs : list Ev) :
  Forall ingestion evs -> map as_blocking evs = evs.
Proof.
  induction 1 as [|ev evs Hev _ IH]; [reflexivity |].
  simpl. rewrite IH. destruct ev; simpl in Hev; [reflexivity.. | contradiction].
Qed.

(** ** Runs of [evaluate] *)

(** A run whose trace ends with the model answering [raw] got past the
    argument check, and its result is the verdict on [raw]. *)
Lemma evaluate_answered (self : Evaluator') query response contexts
    image_paths image_urls (kwargs : gmap string Any) b out b' evs raw :
  evaluate str load_data get_nodes_from_documents self
    query response contexts image_paths image_urls kwargs b = (out, b', evs) ->
  model_said str evs raw ->
  exists q0 r0,
    query = Some q0 /\ response = Some r0 /\
    out = if str_in "yes" (lower raw)
          then Ok (EvaluationResult.mk q0 r0 true 1.0%float raw)
          else if _raise_error self
               then Raise (ValueError "The response is invalid")
               else Ok (EvaluationResult.mk q0 r0 false 0.0%float raw).
Proof.
  unfold evaluate.
  destruct query as [q0|], contexts as [c0|], response as [r0|];
    try (intros [= <- <- <-] []).
  unfold bind at 1, lift.
  destruct (format _ _ _) as [fmt_prompt | e]; [| intros [= <- <- <-] []].
  destruct (load_image_nodes_run image_paths)
    as (r1 & evs1 & Hrun & Hing).
  unfold bind at 1. rewrite Hrun.
  destruct r1 as [[image_nodes|] | e]; simpl.
  - unfold bind, call_llm, verdict, ret, raise.
    destruct (complete _ _ _ _) as [[response_obj | e] b2]; simpl.
    + destruct (str_in "yes" (lower (str response_obj))) eqn:Hyes;
        [| destruct (_raise_error self) eqn:Hraise]; simpl;
        intros [= <- <- <-]; unfold model_said; rewrite last_snoc;
        intros <-; rewrite Hyes; eauto.
    + intros [= <- <- <-]. unfold model_said. rewrite last_snoc. intros [].
  - intros [= <- <- <-] Hsaid. rewrite app_nil_r in Hsaid.
    by apply ingestion_not_said in Hsaid.
  - intros [= <- <- <-] Hsaid. by apply ingestion_not_said in Hsaid.
Qed.

(** The two floats a score can be are different floats. *)
Lemma one_not_zero : 1.0%float <> 0.0%float.
Proof.
  intros H. apply (f_equal (fun x => PrimFloat.eqb x 1.0%float)) in H.
  vm_compute in H. discriminate.
Qed.

(** Steps an entry point up to the model call: the arguments are present,
    the template formats, and the image pipeline has run. *)
Ltac enter_body image_paths r1 evs1 Hrun Hing :=
  unfold bind at 1, lift;
  destruct (format _ _ _) as [fmt_prompt | ?];
  [ destruct (load_image_nodes_run image_paths) as (r1 & evs1 & Hrun & Hing);
    unfold bind at 1; rewrite Hrun;
    destruct r1 as [[image_nodes|] | ?]; simpl
  | ].

(** A result of [evaluate] carries the score of its verdict. *)
Lemma evaluate_score (self : Evaluator') query response contexts
    image_paths image_urls (kwargs : gmap string Any) b res b' evs :
  evaluate str load_data get_nodes_from_documents self
    query response contexts image_paths image_urls kwargs b = (Ok res, b', evs) ->
  EvaluationResult.score res
  = if EvaluationResult.passing res then 1.0%float else 0.0%float.
Proof.
  unfold evaluate.
  destruct query as [q0|], contexts as [c0|], response as [r0|];
    try (intros [=]; fail).
  enter_body image_paths r1 evs1 Hrun Hing; try (intros [=]; fail).
  unfold bind, call_llm, verdict, ret, raise.
  destruct (complete _ _ _ _) as [[response_obj | e] b2]; simpl;
    [| intros [=]].
  destruct (str_in _ _); [| destruct (_raise_error self)]; simpl;
    intros [= <- <- <-]; reflexivity.
Qed.

(** A result of [aevaluate] carries the score of its verdict. *)
Lemma aevaluate_score (self : Evaluator') query response contexts
    image_paths image_urls (kwargs : gmap string Any) b res b' evs :
  aevaluate str load_data get_nodes_from_documents self
    query response contexts image_paths image_urls kwargs b = (Ok res, b', evs) ->
  EvaluationResult.score res
  = if EvaluationResult.passing res then 1.0%float else 0.0%float.
Proof.
  unfold aevaluate.
  destruct query as [q0|], contexts as [c0|], response as [r0|];
    try (intros [=]; fail).
  enter_body image_paths r1 evs1 Hrun Hing; try (intros [=]; fail).
  unfold bind, call_llm, verdict, ret, raise.
  destruct (acomplete _ _ _ _) as [[response_obj | e] b2]; simpl;
    [| intros [=]].
  destruct (str_in _ _); [| destruct (_raise_error self)]; simpl;
    intros [= <- <- <-]; reflexivity.
Qed.

(** With [image_paths] missing or empty, no collaborator is called and no
    result is returned: once the prompt is formatted, the read of
    [image_nodes] at line 129 raises. *)
Lemma evaluate_no_image_paths (self : Evaluator') q0 r0 c0
    image_paths image_urls (kwargs : gmap string Any) b :
  image_paths = None \/ image_paths = Some [] ->
  evaluate str load_data get_nodes_from_documents self
    (Some q0) (Some r0) (Some c0) image_paths image_urls kwargs b
  = match format (_eval_template self) (context_str c0)
            (evaluation_query_str q0 r0) with
    | Ok _ => (Raise (UnboundLocalError "image_nodes"), b, [])
    | Raise e => (Raise e, b, [])
    end.
Proof.
  intros Hpaths. unfold evaluate, bind at 1, lift.
  destruct (format _ _ _) as [fmt_prompt | e]; [| reflexivity].
  unfold bind at 1. rewrite (load_image_nodes_no_paths _ _ Hpaths).
  reflexivity.
Qed.

(** The outcome and the trace of [evaluate] do not depend on the state the
    backend of a deterministic model is in. *)
Lemma evaluate_any_backend (self : Evaluator') query response contexts
    image_paths image_urls (kwargs : gmap string Any) b b' :
  deterministic (_multi_modal_llm self) ->
  let run := evaluate str load_data get_nodes_from_documents self
               query response contexts image_paths image_urls kwargs in
  (run b).1.1 = (run b').1.1 /\ (run b).2 = (run b').2.
Proof.
  intros Hdet run. subst run. unfold evaluate.
  destruct query as [q0|], contexts as [c0|], response as [r0|];
    try (split; reflexivity).
  unfold bind, lift, read_local, call_llm, verdict, ret, raise.
  destruct (format _ _ _) as [fmt_prompt | e]; [| split; reflexivity].
  destruct (load_image_nodes_run image_paths) as (r1 & evs1 & Hrun & _).
  rewrite !Hrun.
  destruct r1 as [[image_nodes|] | e]; simpl; try (split; reflexivity).
  specialize (Hdet fmt_prompt image_nodes b b').
  destruct (complete _ _ _ b) as [o1 b1], (complete _ _ _ b') as [o2 b2].
  simpl in Hdet. subst o2. destruct o1 as [response_obj | e]; simpl;
    [| split; reflexivity].
  destruct (str_in _ _); [| destruct (_raise_error self)]; simpl;
    split; reflexivity.
Qed.

(** ** The verdict *)

(** C1. Whenever the model has answered a call of [evaluate] with the text
    [raw], the call returns a result with [passing = true] exactly when
    [raw] has, somewhere, a [y] or [Y] followed by an [e] or [E] followed by
    an [s] or [S]; nothing else in [raw] is looked at. *)
Theorem verdict_is_yes_substring (self : Evaluator') query response contexts
    image_paths image_urls (kwargs : gmap string Any) b out b' evs raw :
  evaluate str load_data get_nodes_from_documents self
    query response contexts image_paths image_urls kwargs b = (out, b', evs) ->
  model_said str evs raw ->
  (exists res, out = Ok res /\ EvaluationResult.passing res = true)
  <-> contains_yes_ci raw.
Proof.
  intros Hrun Hsaid.
  destruct (evaluate_answered _ _ _ _ _ _ _ _ _ _ _ _ Hrun Hsaid)
    as (q0 & r0 & _ & _ & ->).
  rewrite <- yes_in_lower.
  destruct (str_in "yes" (lower raw)).
  - split; [reflexivity | intros _; eexists; split; reflexivity].
  - split; [| discriminate]. intros (res & Hres & Hpass).
    destruct (_raise_error self); [discriminate |].
    injection Hres as <-. exact Hpass.
Qed.

(** C2. A result returned by [evaluate] or by [aevaluate] has score 1.0
    with [passing = true] or score 0.0 with [passing = false]; the score is
    1.0 exactly when the verdict is passing. *)
Theorem score_follows_passing (self : Evaluator') query response contexts
    image_paths image_urls (kwargs : gmap string Any) b res b' evs :
  evaluate str load_data get_nodes_from_documents self
    query response contexts image_paths image_urls kwargs b = (Ok res, b', evs)
  \/ aevaluate str load_data get_nodes_from_documents self
       query response contexts image_paths image_urls kwargs b
     = (Ok res, b', evs) ->
  (EvaluationResult.passing res = true
   /\ EvaluationResult.score res = 1.0%float
   \/ EvaluationResult.passing res = false
      /\ EvaluationResult.score res = 0.0%float)
  /\ (EvaluationResult.score res = 1.0%float
      <-> EvaluationResult.passing res = true).
Proof.
  intros Hrun.
  assert (EvaluationResult.score res
          = if EvaluationResult.passing res then 1.0%float else 0.0%float)
    as Hscore.
  { destruct Hrun as [Hrun | Hrun].
    - exact (evaluate_score _ _ _ _ _ _ _ _ _ _ _ Hrun).
    - exact (aevaluate_score _ _ _ _ _ _ _ _ _ _ _ Hrun). }
  rewrite Hscore. destruct (EvaluationResult.passing res).
  - split; [left; split; reflexivity | split; reflexivity].
  - split; [right; split; reflexivity |].
    split; [intros H; symmetry in H; by apply one_not_zero in H | discriminate].
Qed.

(** C4. When [query], [response] or [contexts] is [None], both entry points
    raise the argument error at once: the backend is left as it was and the
    trace is empty, so neither the model nor the image pipeline was called. *)
Theorem missing_argument_raises_first (self : Evaluator') query response
    contexts image_paths image_urls (kwargs : gmap string Any) b :
  query = None \/ response = None \/ contexts = None ->
  evaluate str load_data get_nodes_from_documents self
    query response contexts image_paths image_urls kwargs b
  = (Raise (ValueError "query, contexts, and response must be provided"), b, [])
  /\ aevaluate str load_data get_nodes_from_documents self
       query response contexts image_paths image_urls kwargs b
     = (Raise (ValueError "query, contexts, and response must be provided"),
        b, []).
Proof.
  intros Hmissing.
  destruct query, contexts, response; try (split; reflexivity).
  destruct Hmissing as [? | [? | ?]]; discriminate.
Qed.

(** C5. Whenever the model has answered a call of [evaluate] with a text
    [raw] that has no case-insensitive "yes": with [_raise_error] set the
    call raises the result error, so no result is returned; otherwise the
    call returns the result with [passing = false], score 0.0 and [raw] as
    feedback, for the query and response it was given. *)
Theorem failing_verdict_raises_or_fails (self : Evaluator') query response
    contexts image_paths image_urls (kwargs : gmap string Any)
    b out b' evs raw :
  evaluate str load_data get_nodes_from_documents self
    query response contexts image_paths image_urls kwargs b = (out, b', evs) ->
  model_said str evs raw ->
  ~ contains_yes_ci raw ->
  if _raise_error self
  then out = Raise (ValueError "The response is invalid")
  else exists q0 r0,
      query = Some q0 /\ response = Some r0 /\
      out = Ok (EvaluationResult.mk q0 r0 false 0.0%float raw).
Proof.
  intros Hrun Hsaid Hno.
  destruct (evaluate_answered _ _ _ _ _ _ _ _ _ _ _ _ Hrun Hsaid)
    as (q0 & r0 & Hq & Hr & ->).
  rewrite <- yes_in_lower in Hno.
  destruct (str_in "yes" (lower raw)); [by destruct Hno |].
  destruct (_raise_error self); [reflexivity | eauto].
Qed.

(** ** The prompt *)

Lemma append_empty_r (s : string) : s +:+ "" = s.
Proof. induction s as [|c s IH]; simpl; [reflexivity | f_equal; exact IH]. Qed.

Lemma concat_empty_cons (x : string) (l : list string) :
  String.concat "" (x :: l) = x +:+ String.concat "" l.
Proof. destruct l; simpl; [by rewrite append_empty_r | reflexivity]. Qed.

(** [join] puts the separator in front of every element but the first. *)
Lemma join_head_then_separated (sep first : string) (later : list string) :
  join sep (first :: later)
  = first +:+ String.concat "" (map (fun s => sep +:+ s) later).
Proof.
  revert first. induction later as [|second later IH]; intros first.
  - simpl. by rewrite append_empty_r.
  - change (join sep (first :: second :: later))
      with (first +:+ sep +:+ join sep (second :: later)).
    rewrite IH. simpl map. rewrite concat_empty_cons.
    by rewrite (append_assoc sep).
Qed.

Lemma join_blank_line_separated (contexts : list string) :
  context_str contexts = blank_line_separated contexts.
Proof.
  unfold context_str, blank_line_separated.
  destruct contexts as [|first later]; [reflexivity |].
  rewrite join_head_then_separated. do 2 f_equal.
Qed.

(** The prompt of every completion [evaluate] asks for is the evaluation
    template formatted with the joined contexts and the query string. *)
Lemma evaluate_prompt (self : Evaluator') q0 r0 c0
    image_paths image_urls (kwargs : gmap string Any) b out b' evs
    prompt nodes res :
  evaluate str load_data get_nodes_from_documents self
    (Some q0) (Some r0) (Some c0) image_paths image_urls kwargs b
  = (out, b', evs) ->
  In (Complete prompt nodes res) evs ->
  format (_eval_template self) (context_str c0) (evaluation_query_str q0 r0)
  = Ok prompt.
Proof.
  assert (forall evs0 : list Ev, Forall ingestion evs0 ->
            ~ In (Complete prompt nodes res) evs0) as Hnot.
  { intros evs0 Hevs0 Hin. rewrite Forall_forall in Hevs0.
    apply list_elem_of_In in Hin. exact (Hevs0 _ Hin). }
  unfold evaluate.
  enter_body image_paths r1 evs1 Hrun Hing.
  - unfold bind, call_llm, verdict, ret, raise.
    destruct (complete _ _ _ _) as [[response_obj | e] b2]; simpl.
    + destruct (str_in _ _); [| destruct (_raise_error self)]; simpl;
        intros [= <- <- <-] Hin; apply in_app_or in Hin as [Hin | Hin];
        try (by apply Hnot in Hin);
        destruct Hin as [[= -> _ _] | []]; reflexivity.
    + intros [= <- <- <-] Hin. apply in_app_or in Hin as [Hin | Hin];
        [by apply Hnot in Hin |].
      destruct Hin as [[= -> _ _] | []]. reflexivity.
  - intros [= <- <- <-] Hin. rewrite app_nil_r in Hin. by apply Hnot in Hin.
  - intros [= <- <- <-] Hin. by apply Hnot in Hin.
  - intros [= <- <- <-] [].
Qed.

(** ** The two entry points *)

(** C7. When the awaitable completion answers as the blocking one does,
    [aevaluate] ends as [evaluate] does on the same arguments: the same
    result or the same exception, the same backend state, and the same
    calls in the same order, the completion being awaited instead of
    blocked on. *)
Theorem aevaluate_agrees_with_evaluate (self : Evaluator') query response
    contexts image_paths image_urls (kwargs : gmap string Any) b :
  same_answers (_multi_modal_llm self) ->
  let arun := aevaluate str load_data get_nodes_from_documents self
                query response contexts image_paths image_urls kwargs b in
  let run := evaluate str load_data get_nodes_from_documents self
               query response contexts image_paths image_urls kwargs b in
  arun.1.1 = run.1.1 /\ arun.1.2 = run.1.2 /\ map as_blocking arun.2 = run.2.
Proof.
  intros Hsame arun run. subst arun run. unfold aevaluate, evaluate.
  destruct query as [q0|], contexts as [c0|], response as [r0|];
    try (repeat split; reflexivity).
  unfold bind, lift, read_local, call_llm, verdict, ret, raise.
  destruct (format _ _ _) as [fmt_prompt | e]; [| repeat split; reflexivity].
  destruct (load_image_nodes_run image_paths) as (r1 & evs1 & Hrun & Hing).
  rewrite !Hrun.
  destruct r1 as [[image_nodes|] | e]; simpl;
    rewrite ?app_nil_r, ?(as_blocking_ingestion _ Hing);
    try (repeat split; reflexivity).
  rewrite Hsame.
  destruct (complete _ _ _ _) as [[response_obj | e] b2]; simpl.
  - destruct (str_in _ _); [| destruct (_raise_error self)]; simpl;
      rewrite map_app, (as_blocking_ingestion _ Hing); repeat split; reflexivity.
  - rewrite map_app, (as_blocking_ingestion _ Hing). repeat split; reflexivity.
Qed.

(** C8. With a deterministic model, a call of [evaluate] and a second call
    with the same arguments, made on the same evaluator in the state the
    first call left the backend in, end with the same result or the same
    exception, after the same calls with the same answers. *)
Theorem evaluate_twice_same (self : Evaluator') query response contexts
    image_paths image_urls (kwargs : gmap string Any)
    b out1 b1 evs1 out2 b2 evs2 :
  deterministic (_multi_modal_llm self) ->
  evaluate str load_data get_nodes_from_documents self
    query response contexts image_paths image_urls kwargs b
  = (out1, b1, evs1) ->
  evaluate str load_data get_nodes_from_documents self
    query response contexts image_paths image_urls kwargs b1
  = (out2, b2, evs2) ->
  out1 = out2 /\ evs1 = evs2.
Proof.
  intros Hdet Hfirst Hsecond.
  pose proof (evaluate_any_backend self query response contexts image_paths
                image_urls kwargs b b1 Hdet) as Hsame.
  simpl in Hsame. rewrite Hfirst, Hsecond in Hsame. exact Hsame.
Qed.

(** ** The prompt accessors *)

(** X17. Writing back the mapping [_get_prompts] returns changes nothing. *)
Lemma update_with_get_prompts (self : Evaluator') :
  _update_prompts self (_get_prompts self) = self.
Proof.
  unfold _update_prompts, _get_prompts.
  rewrite lookup_insert_eq, lookup_insert_ne, lookup_singleton_eq by done.
  by destruct self.
Qed.

(** C9. [_update_prompts] replaces a template exactly when its key is in
    the mapping given: a key that is absent leaves its template as it was,
    a key that is present installs the template mapped to it, a mapping
    with neither key leaves the evaluator as it was, and the model and the
    raise flag are never touched. *)
Theorem update_prompts_only_present_keys (self : Evaluator')
    (prompts : PromptDictType) :
  let self' := _update_prompts self prompts in
  (prompts !! "eval_template" = None ->
   _eval_template self' = _eval_template self)
  /\ (prompts !! "refine_template" = None ->
      _refine_template self' = _refine_template self)
  /\ (forall t, prompts !! "eval_template" = Some t -> _eval_template self' = t)
  /\ (forall t, prompts !! "refine_template" = Some t ->
      _refine_template self' = t)
  /\ (prompts !! "eval_template" = None ->
      prompts !! "refine_template" = None -> self' = self)
  /\ _multi_modal_llm self' = _multi_modal_llm self
  /\ _raise_error self' = _raise_error self.
Proof.
  intros self'. subst self'. unfold _update_prompts.
  destruct (prompts !! "eval_template") as [t1|],
           (prompts !! "refine_template") as [t2|]; simpl;
    repeat split; try reflexivity; try discriminate; congruence.
Qed.

(** ** The image pipeline, path by path *)

Lemma for_image_path_reads (image_paths : list string)
    (docss : list (list Document)) (image_documents : list Document)
    (b : Backend) :
  reads load_data image_paths docss ->
  for_image_path load_data image_paths image_documents b
  = (Ok (image_documents ++ concat docss), b,
     @loaded Document ImageNode CompletionResponse image_paths docss).
Proof.
  intros Hreads. revert image_documents.
  induction Hreads as [|image_path docs rest docss Hpath _ IH];
    intros image_documents.
  - simpl. by rewrite app_nil_r.
  - simpl. unfold bind, call. rewrite Hpath, IH.
    by rewrite <- app_assoc.
Qed.

Lemma for_image_path_fails (before after : list string) (image_path : string)
    (docss : list (list Document)) (e : Exception)
    (image_documents : list Document) (b : Backend) :
  reads load_data before docss ->
  load_data image_path = Raise e ->
  for_image_path load_data (before ++ image_path :: after) image_documents b
  = (Raise e, b,
     @loaded Document ImageNode CompletionResponse before docss
     ++ [LoadData image_path (Raise e)]).
Proof.
  intros Hreads Hfail. revert image_documents.
  induction Hreads as [|p docs rest docss Hpath _ IH]; intros image_documents.
  - simpl. unfold bind, call. by rewrite Hfail.
  - simpl. unfold bind, call. by rewrite Hpath, IH.
Qed.

Lemma load_image_nodes_reads (image_paths : list string)
    (docss : list (list Document)) (b : Backend) :
  image_paths <> [] ->
  reads load_data image_paths docss ->
  load_image_nodes load_data get_nodes_from_documents (Some image_paths) b
  = match get_nodes_from_documents (concat docss) with
    | Ok image_nodes =>
        (Ok (Some image_nodes), b,
         @loaded Document ImageNode CompletionResponse image_paths docss
         ++ [GetNodes (concat docss) (Ok image_nodes)])
    | Raise e =>
        (Raise e, b,
         @loaded Document ImageNode CompletionResponse image_paths docss
         ++ [GetNodes (concat docss) (Raise e)])
    end.
Proof.
  intros Hne Hreads. destruct image_paths as [|image_path rest]; [done |].
  unfold load_image_nodes, bind at 1.
  rewrite (for_image_path_reads _ _ [] b Hreads). simpl app.
  unfold bind, call, ret.
  by destruct (get_nodes_from_documents (concat docss)).
Qed.

Lemma load_image_nodes_fails (before after : list string) (image_path : string)
    (docss : list (list Document)) (e : Exception) (b : Backend) :
  reads load_data before docss ->
  load_data image_path = Raise e ->
  load_image_nodes load_data get_nodes_from_documents
    (Some (before ++ image_path :: after)) b
  = (Raise e, b,
     @loaded Document ImageNode CompletionResponse before docss
     ++ [LoadData image_path (Raise e)]).
Proof.
  intros Hreads Hfail.
  pose proof (for_image_path_fails before after image_path docss e [] b
                Hreads Hfail) as Hloop.
  unfold load_image_nodes.
  destruct (before ++ image_path :: after) as [|p0 rest] eqn:Hpaths;
    [by destruct before |].
  unfold bind at 1. by rewrite Hloop.
Qed.

(** ** Failures of the collaborators *)

(** X1. When formatting the evaluation template raises, both entry points
    raise that exception at once: no image is read and the model is not
    called, even when image paths were given. *)
Theorem format_failure_raised_first (self : Evaluator') q0 r0 c0
    image_paths image_urls (kwargs : gmap string Any) b e :
  format (_eval_template self) (context_str c0) (evaluation_query_str q0 r0)
  = Raise e ->
  evaluate str load_data get_nodes_from_documents self
    (Some q0) (Some r0) (Some c0) image_paths image_urls kwargs b
  = (Raise e, b, [])
  /\ aevaluate str load_data get_nodes_from_documents self
       (Some q0) (Some r0) (Some c0) image_paths image_urls kwargs b
     = (Raise e, b, []).
Proof.
  intros Hfmt.
  split; [unfold evaluate | unfold aevaluate];
    unfold bind at 1, lift; by rewrite Hfmt.
Qed.

(** X2. When the reader raises on one of the image paths, the paths before
    it having been read, both entry points raise the reader's exception:
    the paths after it are not read, the node parser and the model are not
    called, and the backend is left as it was. *)
Theorem reader_failure_stops_run (self : Evaluator') q0 r0 c0
    before image_path after docss image_urls (kwargs : gmap string Any)
    b fmt_prompt e :
  format (_eval_template self) (context_str c0) (evaluation_query_str q0 r0)
  = Ok fmt_prompt ->
  reads load_data before docss ->
  load_data image_path = Raise e ->
  evaluate str load_data get_nodes_from_documents self
    (Some q0) (Some r0) (Some c0) (Some (before ++ image_path :: after))
    image_urls kwargs b
  = (Raise e, b, loaded before docss ++ [LoadData image_path (Raise e)])
  /\ aevaluate str load_data get_nodes_from_documents self
       (Some q0) (Some r0) (Some c0) (Some (before ++ image_path :: after))
       image_urls kwargs b
     = (Raise e, b, loaded before docss ++ [LoadData image_path (Raise e)]).
Proof.
  intros Hfmt Hreads Hfail.
  pose proof (load_image_nodes_fails before after image_path docss e b
                Hreads Hfail) as Hload.
  split.
  - unfold evaluate, bind at 1, lift. rewrite Hfmt.
    unfold bind at 1. by rewrite Hload.
  - unfold aevaluate, bind at 1, lift. rewrite Hfmt.
    unfold bind at 1. by rewrite Hload.
Qed.

(** X3. When every image path is read but the node parser raises on the
    documents, both entry points raise the parser's exception without
    calling the model. *)
Theorem parser_failure_stops_run (self : Evaluator') q0 r0 c0
    image_paths docss image_urls (kwargs : gmap string Any) b fmt_prompt e :
  format (_eval_template self) (context_str c0) (evaluation_query_str q0 r0)
  = Ok fmt_prompt ->
  image_paths <> [] ->
  reads load_data image_paths docss ->
  get_nodes_from_documents (concat docss) = Raise e ->
  evaluate str load_data get_nodes_from_documents self
    (Some q0) (Some r0) (Some c0) (Some image_paths) image_urls kwargs b
  = (Raise e, b,
     loaded image_paths docss ++ [GetNodes (concat docss) (Raise e)])
  /\ aevaluate str load_data get_nodes_from_documents self
       (Some q0) (Some r0) (Some c0) (Some image_paths) image_urls kwargs b
     = (Raise e, b,
        loaded image_paths docss ++ [GetNodes (concat docss) (Raise e)]).
Proof.
  intros Hfmt Hne Hreads Hparse.
  pose proof (load_image_nodes_reads image_paths docss b Hne Hreads) as Hload.
  rewrite Hparse in Hload.
  split.
  - unfold evaluate, bind at 1, lift. rewrite Hfmt.
    unfold bind at 1. by rewrite Hload.
  - unfold aevaluate, bind at 1, lift. rewrite Hfmt.
    unfold bind at 1. by rewrite Hload.
Qed.

(** X4. When the model raises, [evaluate] raises the model's exception as
    it is, whatever [_raise_error] says, and the backend is left in the
    state the failed completion put it in. *)
Theorem model_failure_propagates (self : Evaluator') q0 r0 c0
    image_paths docss image_nodes image_urls (kwargs : gmap string Any)
    b b1 fmt_prompt e :
  format (_eval_template self) (context_str c0) (evaluation_query_str q0 r0)
  = Ok fmt_prompt ->
  image_paths <> [] ->
  reads load_data image_paths docss ->
  get_nodes_from_documents (concat docss) = Ok image_nodes ->
  complete (_multi_modal_llm self) fmt_prompt image_nodes b = (Raise e, b1) ->
  evaluate str load_data get_nodes_from_documents self
    (Some q0) (Some r0) (Some c0) (Some image_paths) image_urls kwargs b
  = (Raise e, b1,
     loaded image_paths docss
     ++ [GetNodes (concat docss) (Ok image_nodes);
         Complete fmt_prompt image_nodes (Raise e)]).
Proof.
  intros Hfmt Hne Hreads Hparse Hmodel.
  pose proof (load_image_nodes_reads image_paths docss b Hne Hreads) as Hload.
  rewrite Hparse in Hload.
  unfold evaluate, bind at 1, lift. rewrite Hfmt.
  unfold bind at 1. rewrite Hload. simpl.
  unfold bind, call_llm, ret. rewrite Hmodel. simpl.
  by rewrite <- app_assoc.
Qed.

(** X5. When every collaborator succeeds, [evaluate] reads the image paths
    one by one in the order given, hands the node parser the documents of
    all paths in that order, calls the model once with the formatted prompt
    and the parsed nodes, and returns the verdict on the model's text with
    the query and the response it was given. *)
Theorem images_read_in_order (self : Evaluator') q0 r0 c0
    image_paths docss image_nodes image_urls (kwargs : gmap string Any)
    b b1 fmt_prompt response_obj :
  format (_eval_template self) (context_str c0) (evaluation_query_str q0 r0)
  = Ok fmt_prompt ->
  image_paths <> [] ->
  reads load_data image_paths docss ->
  get_nodes_from_documents (concat docss) = Ok image_nodes ->
  complete (_multi_modal_llm self) fmt_prompt image_nodes b
  = (Ok response_obj, b1) ->
  evaluate str load_data get_nodes_from_documents self
    (Some q0) (Some r0) (Some c0) (Some image_paths) image_urls kwargs b
  = (if str_in "yes" (lower (str response_obj))
     then Ok (EvaluationResult.mk q0 r0 true 1.0%float (str response_obj))
     else if _raise_error self
          then Raise (ValueError "The response is invalid")
          else Ok (EvaluationResult.mk q0 r0 false 0.0%float
                     (str response_obj)),
     b1,
     loaded image_paths docss
     ++ [GetNodes (concat docss) (Ok image_nodes);
         Complete fmt_prompt image_nodes (Ok response_obj)]).
Proof.
  intros Hfmt Hne Hreads Hparse Hmodel.
  pose proof (load_image_nodes_reads image_paths docss b Hne Hreads) as Hload.
  rewrite Hparse in Hload.
  unfold evaluate, bind at 1, lift. rewrite Hfmt.
  unfold bind at 1. rewrite Hload. simpl.
  unfold bind, call_llm, verdict, ret, raise. rewrite Hmodel.
  destruct (str_in _ _); [| destruct (_raise_error self)]; simpl;
    by rewrite <- app_assoc.
Qed.

(** ** What every run looks like *)

Lemma ingestion_not_said_async (evs : list Ev) (raw : string) :
  Forall ingestion evs -> ~ model_said_async str evs raw.
Proof.
  unfold model_said_async. intros Hevs Hsaid.
  destruct (last evs) as [ev|] eqn:Hlast; [| exact Hsaid].
  apply last_Some in Hlast as [evs' ->].
  apply Forall_app in Hevs as [_ Hev]. inversion_clear Hev as [|? ? Hing _].
  destruct ev as [| | | ? ? [|]]; simpl in Hing; contradiction.
Qed.

(** Closes the cases of a run that ends before the model is called. *)
Ltac no_call Hing :=
  intros [= <- <- <-]; eexists _, [];
  (split; [symmetry; apply app_nil_r |]);
  (split; [first [exact Hing | constructor] |]);
  left; repeat split; discriminate.

(** X6. A run of either entry point calls the model at most once, and
    after everything else: its trace is calls to the reader and the node
    parser, followed by nothing or by one completion (the blocking one in
    [evaluate], the awaited one in [aevaluate]). Without a completion the
    backend is left as it was and no result is returned; with one, the
    backend is in the state that completion left, and an exception of the
    model is the exception of the run. *)
Theorem at_most_one_completion (self : Evaluator') query response contexts
    image_paths image_urls (kwargs : gmap string Any) b :
  (forall out b' evs,
      evaluate str load_data get_nodes_from_documents self
        query response contexts image_paths image_urls kwargs b
      = (out, b', evs) ->
      exists (ing tail : list Ev),
        evs = ing ++ tail /\ Forall ingestion ing /\
        (tail = [] /\ b' = b /\ (forall res, out <> Ok res)
         \/ exists prompt nodes res,
             tail = [Complete prompt nodes res]
             /\ complete (_multi_modal_llm self) prompt nodes b = (res, b')
             /\ forall e, res = Raise e -> out = Raise e))
  /\ (forall out b' evs,
      aevaluate str load_data get_nodes_from_documents self
        query response contexts image_paths image_urls kwargs b
      = (out, b', evs) ->
      exists (ing tail : list Ev),
        evs = ing ++ tail /\ Forall ingestion ing /\
        (tail = [] /\ b' = b /\ (forall res, out <> Ok res)
         \/ exists prompt nodes res,
             tail = [AComplete prompt nodes res]
             /\ acomplete (_multi_modal_llm self) prompt nodes b = (res, b')
             /\ forall e, res = Raise e -> out = Raise e)).
Proof.
  split; intros out b' evs; [unfold evaluate | unfold aevaluate].
  - destruct query as [q0|], contexts as [c0|], response as [r0|];
      try no_call I.
    enter_body image_paths r1 evs1 Hrun Hing; try no_call Hing.
    + unfold bind, call_llm, verdict, ret, raise.
      destruct (complete _ _ _ _) as [res b2] eqn:Hmodel.
      destruct res as [response_obj | e]; simpl.
      * destruct (str_in _ _); [| destruct (_raise_error self)]; simpl;
          intros [= <- <- <-]; eexists evs1, _; (split; [reflexivity |]);
          (split; [exact Hing |]); right; eexists _, _, _;
          (split; [reflexivity |]); (split; [exact Hmodel |]); discriminate.
      * intros [= <- <- <-]. eexists evs1, _. split; [reflexivity |].
        split; [exact Hing |]. right. eexists _, _, _.
        split; [reflexivity |]. split; [exact Hmodel |]. by intros ? [= ->].
    + rewrite app_nil_r. no_call Hing.
  - destruct query as [q0|], contexts as [c0|], response as [r0|];
      try no_call I.
    enter_body image_paths r1 evs1 Hrun Hing; try no_call Hing.
    + unfold bind, call_llm, verdict, ret, raise.
      destruct (acomplete _ _ _ _) as [res b2] eqn:Hmodel.
      destruct res as [response_obj | e]; simpl.
      * destruct (str_in _ _); [| destruct (_raise_error self)]; simpl;
          intros [= <- <- <-]; eexists evs1, _; (split; [reflexivity |]);
          (split; [exact Hing |]); right; eexists _, _, _;
          (split; [reflexivity |]); (split; [exact Hmodel |]); discriminate.
      * intros [= <- <- <-]. eexists evs1, _. split; [reflexivity |].
        split; [exact Hing |]. right. eexists _, _, _.
        split; [reflexivity |]. split; [exact Hmodel |]. by intros ? [= ->].
    + rewrite app_nil_r. no_call Hing.
Qed.

(** X7. A result is only ever built from an answer of the model: when an
    entry point returns a result, the query and the response of the result
    are the ones the call was given, the last call of the run was the
    completion, it succeeded, and the feedback is the text of its answer. *)
Theorem result_built_from_answer (self : Evaluator') query response contexts
    image_paths image_urls (kwargs : gmap string Any) b res b' evs :
  (evaluate str load_data get_nodes_from_documents self
     query response contexts image_paths image_urls kwargs b
   = (Ok res, b', evs) ->
   query = Some (EvaluationResult.query res)
   /\ response = Some (EvaluationResult.response res)
   /\ model_said str evs (EvaluationResult.feedback res))
  /\ (aevaluate str load_data get_nodes_from_documents self
        query response contexts image_paths image_urls kwargs b
      = (Ok res, b', evs) ->
      query = Some (EvaluationResult.query res)
      /\ response = Some (EvaluationResult.response res)
      /\ model_said_async str evs (EvaluationResult.feedback res)).
Proof.
  split; [unfold evaluate | unfold aevaluate].
  - destruct query as [q0|], contexts as [c0|], response as [r0|];
      try (intros [=]; fail).
    enter_body image_paths r1 evs1 Hrun Hing; try (intros [=]; fail).
    unfold bind, call_llm, verdict, ret, raise.
    destruct (complete _ _ _ _) as [[response_obj | e] b2]; simpl;
      [| intros [=]].
    destruct (str_in _ _); [| destruct (_raise_error self)]; simpl;
      intros [= <- <- <-]; unfold model_said; rewrite last_snoc;
      repeat split; reflexivity.
  - destruct query as [q0|], contexts as [c0|], response as [r0|];
      try (intros [=]; fail).
    enter_body image_paths r1 evs1 Hrun Hing; try (intros [=]; fail).
    unfold bind, call_llm, verdict, ret, raise.
    destruct (acomplete _ _ _ _) as [[response_obj | e] b2]; simpl;
      [| intros [=]].
    destruct (str_in _ _); [| destruct (_raise_error self)]; simpl;
      intros [= <- <- <-]; unfold model_said_async; rewrite last_snoc;
      repeat split; reflexivity.
Qed.

(** The run of [aevaluate] after an answer of the model, as
    [evaluate_answered] has it for [evaluate]. *)
Lemma aevaluate_answered (self : Evaluator') query response contexts
    image_paths image_urls (kwargs : gmap string Any) b out b' evs raw :
  aevaluate str load_data get_nodes_from_documents self
    query response contexts image_paths image_urls kwargs b = (out, b', evs) ->
  model_said_async str evs raw ->
  exists q0 r0,
    query = Some q0 /\ response = Some r0 /\
    out = if str_in "yes" (lower raw)
          then Ok (EvaluationResult.mk q0 r0 true 1.0%float raw)
          else if _raise_error self
               then Raise (ValueError "The response is invalid")
               else Ok (EvaluationResult.mk q0 r0 false 0.0%float raw).
Proof.
  unfold aevaluate.
  destruct query as [q0|], contexts as [c0|], response as [r0|];
    try (intros [= <- <- <-] []).
  enter_body image_paths r1 evs1 Hrun Hing.
  - unfold bind, call_llm, verdict, ret, raise.
    destruct (acomplete _ _ _ _) as [[response_obj | e] b2]; simpl.
    + destruct (str_in "yes" (lower (str response_obj))) eqn:Hyes;
        [| destruct (_raise_error self) eqn:Hraise]; simpl;
        intros [= <- <- <-]; unfold model_said_async; rewrite last_snoc;
        intros <-; rewrite Hyes; eauto.
    + intros [= <- <- <-]. unfold model_said_async. rewrite last_snoc.
      intros [].
  - intros [= <- <- <-] Hsaid. rewrite app_nil_r in Hsaid.
    by apply ingestion_not_said_async in Hsaid.
  - intros [= <- <- <-] Hsaid. by apply ingestion_not_said_async in Hsaid.
  - intros [= <- <- <-] [].
Qed.

(** X8. The verdict of [aevaluate] is the verdict of [evaluate]: whenever
    the awaited completion has answered with the text [raw], a [raw] with a
    case-insensitive "yes" gives the passing result with score 1.0 and
    feedback [raw]; a [raw] without one raises the result error when
    [_raise_error] is set and gives the failing result with score 0.0 and
    feedback [raw] otherwise. *)
Theorem aevaluate_verdict (self : Evaluator') query response contexts
    image_paths image_urls (kwargs : gmap string Any) b out b' evs raw :
  aevaluate str load_data get_nodes_from_documents self
    query response contexts image_paths image_urls kwargs b = (out, b', evs) ->
  model_said_async str evs raw ->
  exists q0 r0,
    query = Some q0 /\ response = Some r0
    /\ (contains_yes_ci raw ->
        out = Ok (EvaluationResult.mk q0 r0 true 1.0%float raw))
    /\ (~ contains_yes_ci raw ->
        out = if _raise_error self
              then Raise (ValueError "The response is invalid")
              else Ok (EvaluationResult.mk q0 r0 false 0.0%float raw)).
Proof.
  intros Hrun Hsaid.
  destruct (aevaluate_answered _ _ _ _ _ _ _ _ _ _ _ _ Hrun Hsaid)
    as (q0 & r0 & Hq & Hr & ->).
  exists q0, r0. rewrite <- yes_in_lower.
  split; [exact Hq |]. split; [exact Hr |].
  destruct (str_in "yes" (lower raw)); split.
  - reflexivity.
  - intros Hno. by destruct Hno.
  - discriminate.
  - reflexivity.
Qed.

(** ** The prompt accessors and the entry points together *)

Lemma eval_template_after_update (self : Evaluator')
    (prompts : PromptDictType) :
  _eval_template (_update_prompts self prompts)
  = default (_eval_template self) (prompts !! "eval_template").
Proof.
  unfold _update_prompts.
  by destruct (prompts !! "eval_template"), (prompts !! "refine_template").
Qed.

Lemma refine_template_after_update (self : Evaluator')
    (prompts : PromptDictType) :
  _refine_template (_update_prompts self prompts)
  = default (_refine_template self) (prompts !! "refine_template").
Proof.
  unfold _update_prompts.
  by destruct (prompts !! "eval_template"), (prompts !! "refine_template").
Qed.

(** X9. The refinement template is inert: an update of the prompts that
    has no "eval_template" key, whatever else it has, leaves both entry
    points behaving exactly as before. *)
Theorem refine_template_inert (self : Evaluator') (prompts : PromptDictType)
    query response contexts image_paths image_urls (kwargs : gmap string Any) :
  prompts !! "eval_template" = None ->
  evaluate str load_data get_nodes_from_documents
    (_update_prompts self prompts)
    query response contexts image_paths image_urls kwargs
  = evaluate str load_data get_nodes_from_documents self
      query response contexts image_paths image_urls kwargs
  /\ aevaluate str load_data get_nodes_from_documents
       (_update_prompts self prompts)
       query response contexts image_paths image_urls kwargs
     = aevaluate str load_data get_nodes_from_documents self
         query response contexts image_paths image_urls kwargs.
Proof.
  intros Hnone. unfold _update_prompts. rewrite Hnone.
  destruct (prompts !! "refine_template"); split; reflexivity.
Qed.

(** X10. An evaluation template installed by [_update_prompts] is the one
    the next [evaluate] formats: the prompt of any completion that call asks
    for is the installed template formatted with the joined contexts and
    the query string. *)
Theorem updated_eval_template_formats_prompt (self : Evaluator')
    (prompts : PromptDictType) t q0 r0 c0 image_paths image_urls
    (kwargs : gmap string Any) b out b' evs prompt nodes res :
  prompts !! "eval_template" = Some t ->
  evaluate str load_data get_nodes_from_documents
    (_update_prompts self prompts)
    (Some q0) (Some r0) (Some c0) image_paths image_urls kwargs b
  = (out, b', evs) ->
  In (Complete prompt nodes res) evs ->
  format t (context_str c0) (evaluation_query_str q0 r0) = Ok prompt.
Proof.
  intros Hkey Hrun Hin.
  pose proof (evaluate_prompt _ _ _ _ _ _ _ _ _ _ _ _ _ _ Hrun Hin) as Hfmt.
  by rewrite eval_template_after_update, Hkey in Hfmt.
Qed.

(** X11. Two updates in a row are one update with the union of the two
    mappings, the later mapping winning on a key both have; so an update
    repeated changes nothing more. *)
Theorem update_prompts_compose (self : Evaluator')
    (first second : PromptDictType) :
  _update_prompts (_update_prompts self first) second
  = _update_prompts self (second ∪ first)
  /\ _update_prompts (_update_prompts self first) first
     = _update_prompts self first.
Proof.
  assert (forall p1 p2 : PromptDictType,
             _update_prompts (_update_prompts self p1) p2
             = _update_prompts self (p2 ∪ p1)) as Hcompose.
  { intros p1 p2. unfold _update_prompts. rewrite !lookup_union.
    destruct (p2 !! "eval_template"), (p1 !! "eval_template"),
      (p2 !! "refine_template"), (p1 !! "refine_template");
      reflexivity. }
  split; [apply Hcompose |].
  rewrite Hcompose. f_equal. apply map_eq. intros k.
  rewrite lookup_union. by destruct (first !! k).
Qed.

(** X12. What [_get_prompts] returns after an update: under each of the
    two keys the template the update mapped to it, or the previous one if
    the update had no such key; and no other key, whatever keys the update
    had. *)
Theorem get_prompts_after_update (self : Evaluator')
    (prompts : PromptDictType) :
  let got := _get_prompts (_update_prompts self prompts) in
  got !! "eval_template"
  = Some (default (_eval_template self) (prompts !! "eval_template"))
  /\ got !! "refine_template"
     = Some (default (_refine_template self) (prompts !! "refine_template"))
  /\ forall k, ~ prompt_key k -> got !! k = None.
Proof.
  intros got. subst got. unfold _get_prompts.
  rewrite eval_template_after_update, refine_template_after_update.
  split; [by rewrite lookup_insert_eq |].
  split; [by rewrite lookup_insert_ne, lookup_singleton_eq |].
  intros k Hk. unfold prompt_key in Hk.
  rewrite lookup_insert_ne, lookup_singleton_ne; [reflexivity | |];
    intros <-; apply Hk; auto.
Qed.

(** X13. Joining the contexts of two non-empty lists put end to end gives
    the two blocks with one blank line between them. *)
Theorem context_str_app (before after : list string) :
  before <> [] -> after <> [] ->
  context_str (before ++ after)
  = context_str before +:+ nl +:+ nl +:+ context_str after.
Proof.
  unfold context_str. intros Hbefore Hafter.
  induction before as [|c before IH]; [done |].
  destruct before as [|c' before].
  - destruct after as [|a after]; [done |].
    change (join (nl +:+ nl) ([c] ++ a :: after))
      with (c +:+ (nl +:+ nl) +:+ join (nl +:+ nl) (a :: after)).
    change (join (nl +:+ nl) [c]) with c.
    by rewrite (append_assoc nl).
  - change (join (nl +:+ nl) ((c :: c' :: before) ++ after))
      with (c +:+ (nl +:+ nl) +:+ join (nl +:+ nl) ((c' :: before) ++ after)).
    rewrite IH by done.
    change (join (nl +:+ nl) (c :: c' :: before))
      with (c +:+ (nl +:+ nl) +:+ join (nl +:+ nl) (c' :: before)).
    by rewrite !append_assoc.
Qed.

(** ** The verdict and the text around a "yes" *)

Lemma lower_char_idempotent (c : ascii) : lower_char (lower_char c) = lower_char c.
Proof. destruct c as [[] [] [] [] [] [] [] []]; reflexivity. Qed.

Lemma lower_idempotent (s : string) : lower (lower s) = lower s.
Proof.
  induction s as [|c s IH]; simpl; [reflexivity |].
  by rewrite lower_char_idempotent, IH.
Qed.

(** X16. A passing text passes in any surroundings: when the verdict on
    [raw] is passing, so is the verdict on [raw] with any text before and
    after it, and so is the verdict on [raw] in lower case. *)
Theorem verdict_keeps_passing (self : Evaluator') (raw before after : string)
    (b : Backend) :
  verdict (Document := Document) self raw b = (Ok true, b, []) ->
  verdict (Document := Document) self (before +:+ raw +:+ after) b
  = (Ok true, b, [])
  /\ verdict (Document := Document) self (lower raw) b = (Ok true, b, []).
Proof.
  unfold verdict. intros Hpass.
  assert (str_in "yes" (lower raw) = true) as Hyes.
  { destruct (str_in "yes" (lower raw)); [reflexivity |].
    destruct (_raise_error self); discriminate. }
  rewrite lower_idempotent, Hyes. split; [| reflexivity].
  apply str_in_occurs in Hyes as (pre & post & Hraw).
  assert (str_in "yes" (lower (before +:+ raw +:+ after)) = true) as ->;
    [| reflexivity].
  apply str_in_occurs. exists (lower before +:+ pre), (post +:+ lower after).
  rewrite !lower_append, Hraw. by rewrite !append_assoc.
Qed.

(** ** The context block in the prompt *)

(** C6. The context block is the snippets in the order given, the first as
    it is and every later one behind exactly two newline characters; the
    two snippets about Paris give the block of the example. [evaluate]
    renders that block into its prompt: it formats the evaluation template
    with the block as [context_str], so that a failure of the template on
    the block is the failure of the run, and, once the images are read and
    parsed, the model is called with the template's text for the block; and
    no completion is ever asked for with another prompt. *)
Theorem context_block_blank_line_joined :
  (forall contexts, context_str contexts = blank_line_separated contexts)
  /\ context_str ["Paris is in France."; "The Eiffel Tower is in Paris."]
     = "Paris is in France." +:+ nl +:+ nl +:+ "The Eiffel Tower is in Paris."
  /\ (forall (self : Evaluator') q0 r0 c0 image_paths docss image_nodes
         image_urls (kwargs : gmap string Any) b fmt_prompt,
        format (_eval_template self) (blank_line_separated c0)
          (evaluation_query_str q0 r0) = Ok fmt_prompt ->
        image_paths <> [] ->
        reads load_data image_paths docss ->
        get_nodes_from_documents (concat docss) = Ok image_nodes ->
        exists out,
          evaluate str load_data get_nodes_from_documents self
            (Some q0) (Some r0) (Some c0) (Some image_paths) image_urls
            kwargs b
          = (out,
             (complete (_multi_modal_llm self) fmt_prompt image_nodes b).2,
             loaded image_paths docss
             ++ [GetNodes (concat docss) (Ok image_nodes);
                 Complete fmt_prompt image_nodes
                   (complete (_multi_modal_llm self) fmt_prompt
                      image_nodes b).1]))
  /\ (forall (self : Evaluator') q0 r0 c0 image_paths image_urls
         (kwargs : gmap string Any) b e,
        format (_eval_template self) (blank_line_separated c0)
          (evaluation_query_str q0 r0) = Raise e ->
        evaluate str load_data get_nodes_from_documents self
          (Some q0) (Some r0) (Some c0) image_paths image_urls kwargs b
        = (Raise e, b, []))
  /\ (forall (self : Evaluator') q0 r0 c0 image_paths image_urls
         (kwargs : gmap string Any) b out b' evs prompt nodes res,
        evaluate str load_data get_nodes_from_documents self
          (Some q0) (Some r0) (Some c0) image_paths image_urls kwargs b
        = (out, b', evs) ->
        In (Complete prompt nodes res) evs ->
        format (_eval_template self) (blank_line_separated c0)
          (evaluation_query_str q0 r0) = Ok prompt).
Proof.
  split; [exact join_blank_line_separated |]. split; [reflexivity |].
  split; [| split].
  - intros self q0 r0 c0 image_paths docss image_nodes image_urls kwargs b
      fmt_prompt Hfmt Hne Hreads Hparse.
    rewrite <- join_blank_line_separated in Hfmt.
    pose proof (load_image_nodes_reads image_paths docss b Hne Hreads)
      as Hload.
    rewrite Hparse in Hload.
    unfold evaluate, bind at 1, lift. rewrite Hfmt.
    unfold bind at 1. rewrite Hload. simpl.
    unfold bind, call_llm, verdict, ret, raise.
    destruct (complete _ _ _ _) as [[response_obj | e] b1]; simpl.
    + destruct (str_in _ _); [| destruct (_raise_error self)]; simpl;
        eexists; by rewrite <- app_assoc.
    + eexists. by rewrite <- app_assoc.
  - intros self q0 r0 c0 image_paths image_urls kwargs b e Hfmt.
    rewrite <- join_blank_line_separated in Hfmt.
    unfold evaluate, bind at 1, lift. by rewrite Hfmt.
  - intros self q0 r0 c0 image_paths image_urls kwargs b out b' evs
      prompt nodes res Hrun Hin.
    rewrite <- join_blank_line_separated.
    exact (evaluate_prompt _ _ _ _ _ _ _ _ _ _ _ _ _ _ Hrun Hin).
Qed.

(** ** Surplus keywords *)




End Runs.

(** ** The entry points on the stub environment *)

(** C3. The call of the example, with every required argument present, the
    model stubbed to answer "YES" and no image path (an empty list, or none
    at all): the model is not called and no result is returned; the call
    ends with the unbound-local error on [image_nodes], in [evaluate] and in
    [aevaluate] alike. *)
Theorem evaluate_without_images_unbound :
  let self := stub_evaluator "YES" false in
  let query := Some "Is this a cat?" in
  let response := Some "Yes, it is a cat." in
  let contexts := Some ["An image of a cat."] in
  stub_evaluate self query response contexts (Some []) 0
  = (Raise (UnboundLocalError "image_nodes"), 0, [])
  /\ stub_evaluate self query response contexts None 0
     = (Raise (UnboundLocalError "image_nodes"), 0, [])
  /\ stub_aevaluate self query response contexts (Some []) 0
     = (Raise (UnboundLocalError "image_nodes"), 0, [])
  /\ stub_aevaluate self query response contexts None 0
     = (Raise (UnboundLocalError "image_nodes"), 0, []).
Proof. repeat split; vm_compute; reflexivity. Qed.

(** With one image path the same call reaches the model and passes. *)
Example evaluate_with_image_passes :
  stub_evaluate (stub_evaluator "YES" false) (Some "Is this a cat?")
    (Some "Yes, it is a cat.") (Some ["An image of a cat."])
    (Some ["cat.png"]) 0
  = (Ok (EvaluationResult.mk "Is this a cat?" "Yes, it is a cat." true
           1.0%float "YES"),
     1,
     [LoadData "cat.png" (Ok ["cat.png"]);
      GetNodes ["cat.png"] (Ok ["cat.png"]);
      Complete ("Question: Is this a cat?" +:+ nl
                +:+ "Response: Yes, it is a cat." +:+ nl
                +:+ "An image of a cat.")
        ["cat.png"] (Ok "YES")]).
Proof. vm_compute. reflexivity. Qed.

(** "yesterday" passes, and so does a "no" next to a "yes". *)
Example yes_inside_a_word :
  str_in "yes" (lower "See you yesterday") = true
  /\ str_in "yes" (lower "NO. Or YeS?") = true
  /\ str_in "yes" (lower "No, the response does not match.") = false
  /\ str_in "yes" (lower "y e s") = false.
Proof. repeat split; vm_compute; reflexivity. Qed.

Lemma verdict_is_yes_substring_witness :
  let run := stub_evaluate (stub_evaluator "YES" false)
               (Some "Is this a cat?") (Some "Yes, it is a cat.")
               (Some ["An image of a cat."]) (Some ["cat.png"]) 0 in
  model_said id run.2 "YES"
  /\ ((exists res, run.1.1 = Ok res /\ EvaluationResult.passing res = true)
      <-> contains_yes_ci "YES").
Proof.
  intros run.
  assert (model_said id run.2 "YES") as Hsaid by (vm_compute; reflexivity).
  split; [exact Hsaid |].
  apply (verdict_is_yes_substring id stub_load_data stub_get_nodes
           (stub_evaluator "YES" false)
           (Some "Is this a cat?") (Some "Yes, it is a cat.")
           (Some ["An image of a cat."]) (Some ["cat.png"]) None
           (∅ : gmap string nat) 0 run.1.1 run.1.2 run.2 "YES");
    [vm_compute; reflexivity | exact Hsaid].
Defined.

Lemma score_follows_passing_witness :
  let res := EvaluationResult.mk "Is this a cat?" "Yes, it is a cat." true
               1.0%float "YES" in
  (EvaluationResult.passing res = true
   /\ EvaluationResult.score res = 1.0%float
   \/ EvaluationResult.passing res = false
      /\ EvaluationResult.score res = 0.0%float)
  /\ (EvaluationResult.score res = 1.0%float
      <-> EvaluationResult.passing res = true).
Proof.
  intros res.
  apply (score_follows_passing id stub_load_data stub_get_nodes
           (stub_evaluator "YES" false)
           (Some "Is this a cat?") (Some "Yes, it is a cat.")
           (Some ["An image of a cat."]) (Some ["cat.png"]) None
           (∅ : gmap string nat) 0 res 1
           [LoadData "cat.png" (Ok ["cat.png"]);
            GetNodes ["cat.png"] (Ok ["cat.png"]);
            Complete ("Question: Is this a cat?" +:+ nl
                      +:+ "Response: Yes, it is a cat." +:+ nl
                      +:+ "An image of a cat.")
              ["cat.png"] (Ok "YES")]).
  left. vm_compute. reflexivity.
Defined.

Lemma missing_argument_raises_first_witness :
  stub_evaluate (stub_evaluator "YES" false) None (Some "Yes, it is a cat.")
    (Some ["An image of a cat."]) (Some ["cat.png"]) 7
  = (Raise (ValueError "query, contexts, and response must be provided"), 7, [])
  /\ stub_aevaluate (stub_evaluator "YES" false) None
       (Some "Yes, it is a cat.") (Some ["An image of a cat."])
       (Some ["cat.png"]) 7
     = (Raise (ValueError "query, contexts, and response must be provided"),
        7, []).
Proof.
  apply (missing_argument_raises_first id stub_load_data stub_get_nodes
           (stub_evaluator "YES" false) None (Some "Yes, it is a cat.")
           (Some ["An image of a cat."]) (Some ["cat.png"]) None
           (∅ : gmap string nat) 7).
  left. reflexivity.
Defined.

Lemma failing_verdict_raises_or_fails_witness :
  let raw := "No, the response does not match." in
  let run raise_error :=
    stub_evaluate (stub_evaluator raw raise_error)
      (Some "Is this a cat?") (Some "It is a dog.")
      (Some ["An image of a cat."]) (Some ["cat.png"]) 0 in
  (run true).1.1 = Raise (ValueError "The response is invalid")
  /\ exists q0 r0,
      Some "Is this a cat?" = Some q0 /\ Some "It is a dog." = Some r0
      /\ (run false).1.1 = Ok (EvaluationResult.mk q0 r0 false 0.0%float raw).
Proof.
  intros raw run.
  assert (~ contains_yes_ci raw) as Hno.
  { rewrite <- yes_in_lower. vm_compute. discriminate. }
  split.
  - apply (failing_verdict_raises_or_fails id stub_load_data stub_get_nodes
             (stub_evaluator raw true)
             (Some "Is this a cat?") (Some "It is a dog.")
             (Some ["An image of a cat."]) (Some ["cat.png"]) None
             (∅ : gmap string nat) 0
             (run true).1.1 (run true).1.2 (run true).2 raw);
      [vm_compute; reflexivity | vm_compute; reflexivity | exact Hno].
  - apply (failing_verdict_raises_or_fails id stub_load_data stub_get_nodes
             (stub_evaluator raw false)
             (Some "Is this a cat?") (Some "It is a dog.")
             (Some ["An image of a cat."]) (Some ["cat.png"]) None
             (∅ : gmap string nat) 0
             (run false).1.1 (run false).1.2 (run false).2 raw);
      [vm_compute; reflexivity | vm_compute; reflexivity | exact Hno].
Defined.

Lemma aevaluate_agrees_with_evaluate_witness :
  let arun := stub_aevaluate (stub_evaluator "Yes." false)
                (Some "Is this a cat?") (Some "Yes, it is a cat.")
                (Some ["An image of a cat."]) (Some ["cat.png"]) 0 in
  let run := stub_evaluate (stub_evaluator "Yes." false)
               (Some "Is this a cat?") (Some "Yes, it is a cat.")
               (Some ["An image of a cat."]) (Some ["cat.png"]) 0 in
  same_answers (stub_llm "Yes.")
  /\ arun.1.1 = run.1.1 /\ arun.1.2 = run.1.2 /\ map as_blocking arun.2 = run.2.
Proof.
  intros arun run.
  assert (same_answers (stub_llm "Yes.")) as Hsame
    by (intros prompt image_documents b; reflexivity).
  split; [exact Hsame |].
  exact (aevaluate_agrees_with_evaluate id stub_load_data stub_get_nodes
           (stub_evaluator "Yes." false)
           (Some "Is this a cat?") (Some "Yes, it is a cat.")
           (Some ["An image of a cat."]) (Some ["cat.png"]) None
           (∅ : gmap string nat) 0 Hsame).
Defined.

Lemma evaluate_twice_same_witness :
  let self := stub_evaluator "Yes." false in
  let first := stub_evaluate self (Some "Is this a cat?")
                 (Some "Yes, it is a cat.") (Some ["An image of a cat."])
                 (Some ["cat.png"]) 0 in
  let second := stub_evaluate self (Some "Is this a cat?")
                  (Some "Yes, it is a cat.") (Some ["An image of a cat."])
                  (Some ["cat.png"]) first.1.2 in
  deterministic (stub_llm "Yes.")
  /\ first.1.2 = 1 /\ second.1.2 = 2
  /\ first.1.1 = second.1.1 /\ first.2 = second.2.
Proof.
  intros self first second.
  assert (deterministic (stub_llm "Yes.")) as Hdet
    by (intros prompt image_documents b b'; reflexivity).
  split; [exact Hdet |].
  split; [vm_compute; reflexivity |]. split; [vm_compute; reflexivity |].
  apply (evaluate_twice_same id stub_load_data stub_get_nodes self
           (Some "Is this a cat?") (Some "Yes, it is a cat.")
           (Some ["An image of a cat."]) (Some ["cat.png"]) None
           (∅ : gmap string nat)
           0 first.1.1 first.1.2 first.2 second.1.1 second.1.2 second.2 Hdet);
    vm_compute; reflexivity.
Defined.

Lemma update_prompts_only_present_keys_witness :
  let self := stub_evaluator "Yes." false in
  let prompts : PromptDictType := {[ "eval_template" := other_template ]} in
  prompts !! "refine_template" = None
  /\ _refine_template (_update_prompts self prompts) = stub_template
  /\ _eval_template (_update_prompts self prompts) = other_template.
Proof.
  intros self prompts.
  assert (prompts !! "refine_template" = None) as Hrefine
    by (vm_compute; reflexivity).
  assert (prompts !! "eval_template" = Some other_template) as Heval
    by (vm_compute; reflexivity).
  pose proof (update_prompts_only_present_keys self prompts)
    as (_ & Hkept & Hset & _).
  split; [exact Hrefine |]. split.
  - exact (Hkept Hrefine).
  - exact (Hset _ Heval).
Defined.

(** ** Construction *)

Section ConstructionFacts.

Context {ImageNode CompletionResponse Backend : Type}.
Variable PromptTemplate : string -> BasePromptTemplate.
Variable OpenAIMultiModal :
  string -> nat -> outcome (MultiModalLLM ImageNode CompletionResponse Backend).
Variable llm_bool : MultiModalLLM ImageNode CompletionResponse Backend -> bool.
Variable template_bool : BasePromptTemplate -> bool.

(** X14. A model that is supplied (and true as an object) is the model of
    the evaluator, and construction then succeeds whatever building the
    default model would do; with no model supplied, a failure to build the
    default model "gpt-4-vision-preview" with 1000 new tokens is the failure
    of the construction. *)
Theorem init_uses_supplied_model
    (llm : MultiModalLLM ImageNode CompletionResponse Backend)
    raise_error eval_template refine_template :
  (llm_bool llm = true ->
   exists self,
     __init__ PromptTemplate OpenAIMultiModal llm_bool template_bool
       (Some llm) raise_error eval_template refine_template = Ok self
     /\ _multi_modal_llm self = llm
     /\ _raise_error self = raise_error)
  /\ (forall e,
        OpenAIMultiModal "gpt-4-vision-preview" 1000 = Raise e ->
        __init__ PromptTemplate OpenAIMultiModal llm_bool template_bool
          None raise_error eval_template refine_template = Raise e).
Proof.
  split.
  - intros Htrue. unfold __init__. rewrite Htrue.
    eexists. repeat split; reflexivity.
  - intros e Hfail. unfold __init__. by rewrite Hfail.
Qed.

(** X15. Constructing with templates is constructing with the defaults and
    then updating the prompts: template objects (true as objects) given to
    the constructor give the evaluator that [_update_prompts] makes of the
    default one with the two objects under their keys; a template given as
    a string, the empty string included, gives the one made with the string
    wrapped by [PromptTemplate]. *)
Theorem init_is_default_then_update
    (multi_modal_llm : option (MultiModalLLM ImageNode CompletionResponse Backend))
    raise_error (t1 t2 : BasePromptTemplate) self0 :
  __init__ PromptTemplate OpenAIMultiModal llm_bool template_bool
    multi_modal_llm raise_error None None = Ok self0 ->
  template_bool t1 = true ->
  template_bool t2 = true ->
  __init__ PromptTemplate OpenAIMultiModal llm_bool template_bool
    multi_modal_llm raise_error (Some (inr t1)) (Some (inr t2))
  = Ok (_update_prompts self0
          {[ "eval_template" := t1; "refine_template" := t2 ]})
  /\ forall text,
      __init__ PromptTemplate OpenAIMultiModal llm_bool template_bool
        multi_modal_llm raise_error (Some (inl text)) None
      = Ok (_update_prompts self0
              {[ "eval_template" := PromptTemplate text ]}).
Proof.
  unfold __init__, resolve_template. intros Hdefault Ht1 Ht2.
  rewrite Ht1, Ht2.
  destruct (match multi_modal_llm with
            | Some llm => if llm_bool llm then Ok llm
                          else OpenAIMultiModal "gpt-4-vision-preview" 1000
            | None => OpenAIMultiModal "gpt-4-vision-preview" 1000
            end) as [llm | e]; [| discriminate].
  injection Hdefault as <-. unfold _update_prompts. split.
  - by rewrite lookup_insert_eq, lookup_insert_ne, lookup_singleton_eq.
  - intros text.
    by rewrite lookup_singleton_eq, lookup_singleton_ne.
Qed.

End ConstructionFacts.

(** ** The further properties on the stub environment *)

Lemma format_failure_raised_first_witness :
  let self := {| _multi_modal_llm := stub_llm "YES";
                 _raise_error := false;
                 _eval_template := failing_template;
                 _refine_template := stub_template |} in
  stub_evaluate self (Some "Is this a cat?") (Some "Yes.") (Some [])
    (Some ["cat.png"]) 3
  = (Raise (UpstreamError "missing slot"), 3, [])
  /\ stub_aevaluate self (Some "Is this a cat?") (Some "Yes.") (Some [])
       (Some ["cat.png"]) 3
     = (Raise (UpstreamError "missing slot"), 3, []).
Proof.
  intros self.
  apply (format_failure_raised_first id stub_load_data stub_get_nodes self
           "Is this a cat?" "Yes." [] (Some ["cat.png"]) None
           (∅ : gmap string nat) 3 (UpstreamError "missing slot")).
  reflexivity.
Defined.

Lemma reader_failure_stops_run_witness :
  let self := stub_evaluator "YES" false in
  evaluate (Any := nat) id flaky_load_data stub_get_nodes self
    (Some "Is this a cat?") (Some "Yes.") (Some ["A cat."])
    (Some (["a.png"] ++ "missing.png" :: ["c.png"])) None ∅ 0
  = (Raise (UpstreamError "no such file"), 0,
     [LoadData "a.png" (Ok ["a.png"; "a.png#2"]);
      LoadData "missing.png" (Raise (UpstreamError "no such file"))])
  /\ aevaluate (Any := nat) id flaky_load_data stub_get_nodes self
       (Some "Is this a cat?") (Some "Yes.") (Some ["A cat."])
       (Some (["a.png"] ++ "missing.png" :: ["c.png"])) None ∅ 0
     = (Raise (UpstreamError "no such file"), 0,
        [LoadData "a.png" (Ok ["a.png"; "a.png#2"]);
         LoadData "missing.png" (Raise (UpstreamError "no such file"))]).
Proof.
  intros self.
  apply (reader_failure_stops_run id flaky_load_data stub_get_nodes self
           "Is this a cat?" "Yes." ["A cat."]
           ["a.png"] "missing.png" ["c.png"] [["a.png"; "a.png#2"]] None
           (∅ : gmap string nat) 0
           (evaluation_query_str "Is this a cat?" "Yes." +:+ nl +:+ "A cat.")
           (UpstreamError "no such file")).
  - reflexivity.
  - repeat constructor.
  - reflexivity.
Defined.

Lemma parser_failure_stops_run_witness :
  let self := stub_evaluator "YES" false in
  evaluate (Any := nat) id stub_load_data failing_get_nodes self
    (Some "Is this a cat?") (Some "Yes.") (Some ["A cat."])
    (Some ["a.png"; "b.png"]) None ∅ 0
  = (Raise (UpstreamError "cannot parse"), 0,
     [LoadData "a.png" (Ok ["a.png"]); LoadData "b.png" (Ok ["b.png"]);
      GetNodes ["a.png"; "b.png"] (Raise (UpstreamError "cannot parse"))])
  /\ aevaluate (Any := nat) id stub_load_data failing_get_nodes self
       (Some "Is this a cat?") (Some "Yes.") (Some ["A cat."])
       (Some ["a.png"; "b.png"]) None ∅ 0
     = (Raise (UpstreamError "cannot parse"), 0,
        [LoadData "a.png" (Ok ["a.png"]); LoadData "b.png" (Ok ["b.png"]);
         GetNodes ["a.png"; "b.png"] (Raise (UpstreamError "cannot parse"))]).
Proof.
  intros self.
  apply (parser_failure_stops_run id stub_load_data failing_get_nodes self
           "Is this a cat?" "Yes." ["A cat."]
           ["a.png"; "b.png"] [["a.png"]; ["b.png"]] None
           (∅ : gmap string nat) 0
           (evaluation_query_str "Is this a cat?" "Yes." +:+ nl +:+ "A cat.")
           (UpstreamError "cannot parse")).
  - reflexivity.
  - discriminate.
  - repeat constructor.
  - reflexivity.
Defined.

Lemma model_failure_propagates_witness :
  let self := {| _multi_modal_llm := failing_llm;
                 _raise_error := false;
                 _eval_template := other_template;
                 _refine_template := stub_template |} in
  stub_evaluate self (Some "Is this a cat?") (Some "Yes.") (Some ["A cat."])
    (Some ["a.png"]) 0
  = (Raise (UpstreamError "rate limit"), 1,
     [LoadData "a.png" (Ok ["a.png"]); GetNodes ["a.png"] (Ok ["a.png"]);
      Complete "A cat." ["a.png"] (Raise (UpstreamError "rate limit"))]).
Proof.
  intros self.
  apply (model_failure_propagates id stub_load_data stub_get_nodes self
           "Is this a cat?" "Yes." ["A cat."]
           ["a.png"] [["a.png"]] ["a.png"] None
           (∅ : gmap string nat) 0 1 "A cat." (UpstreamError "rate limit")).
  - reflexivity.
  - discriminate.
  - repeat constructor.
  - reflexivity.
  - reflexivity.
Defined.

Lemma images_read_in_order_witness :
  let self := {| _multi_modal_llm := stub_llm "Yes, it matches.";
                 _raise_error := true;
                 _eval_template := other_template;
                 _refine_template := stub_template |} in
  evaluate (Any := nat) id flaky_load_data stub_get_nodes self
    (Some "Is this a cat?") (Some "Yes.") (Some ["A cat."])
    (Some ["a.png"; "b.png"]) None ∅ 0
  = (Ok (EvaluationResult.mk "Is this a cat?" "Yes." true 1.0%float
           "Yes, it matches."),
     1,
     [LoadData "a.png" (Ok ["a.png"; "a.png#2"]);
      LoadData "b.png" (Ok ["b.png"; "b.png#2"]);
      GetNodes ["a.png"; "a.png#2"; "b.png"; "b.png#2"]
        (Ok ["a.png"; "a.png#2"; "b.png"; "b.png#2"]);
      Complete "A cat." ["a.png"; "a.png#2"; "b.png"; "b.png#2"]
        (Ok "Yes, it matches.")]).
Proof.
  intros self.
  apply (images_read_in_order id flaky_load_data stub_get_nodes self
           "Is this a cat?" "Yes." ["A cat."]
           ["a.png"; "b.png"] [["a.png"; "a.png#2"]; ["b.png"; "b.png#2"]]
           ["a.png"; "a.png#2"; "b.png"; "b.png#2"] None
           (∅ : gmap string nat) 0 1 "A cat." "Yes, it matches.").
  - reflexivity.
  - discriminate.
  - repeat constructor.
  - reflexivity.
  - reflexivity.
Defined.

Lemma at_most_one_completion_witness :
  let self := stub_evaluator "YES" false in
  let run := stub_evaluate self (Some "Is this a cat?") (Some "Yes.")
               (Some ["A cat."]) (Some ["a.png"; "b.png"]) 4 in
  exists ing tail,
    run.2 = ing ++ tail /\ Forall ingestion ing /\
    (tail = [] /\ run.1.2 = 4 /\ (forall res, run.1.1 <> Ok res)
     \/ exists prompt nodes res,
         tail = [Complete prompt nodes res]
         /\ complete (_multi_modal_llm self) prompt nodes 4 = (res, run.1.2)
         /\ forall e, res = Raise e -> run.1.1 = Raise e).
Proof.
  intros self run.
  apply (proj1 (at_most_one_completion id stub_load_data stub_get_nodes self
                  (Some "Is this a cat?") (Some "Yes.") (Some ["A cat."])
                  (Some ["a.png"; "b.png"]) None (∅ : gmap string nat) 4)
           run.1.1 run.1.2 run.2).
  vm_compute. reflexivity.
Defined.

Lemma result_built_from_answer_witness :
  let res := EvaluationResult.mk "Is this a cat?" "Yes." false 0.0%float
               "No." in
  let evs := [LoadData "a.png" (Ok ["a.png"]);
              GetNodes ["a.png"] (Ok ["a.png"]);
              AComplete "A cat." ["a.png"] (Ok "No.")] in
  Some "Is this a cat?" = Some (EvaluationResult.query res)
  /\ Some "Yes." = Some (EvaluationResult.response res)
  /\ model_said_async id evs (EvaluationResult.feedback res).
Proof.
  intros res evs.
  apply (proj2 (result_built_from_answer id stub_load_data stub_get_nodes
                  {| _multi_modal_llm := stub_llm "No.";
                     _raise_error := false;
                     _eval_template := other_template;
                     _refine_template := stub_template |}
                  (Some "Is this a cat?") (Some "Yes.") (Some ["A cat."])
                  (Some ["a.png"]) None (∅ : gmap string nat) 0 res 1 evs)).
  vm_compute. reflexivity.
Defined.

Lemma aevaluate_verdict_witness :
  let raw := "yesterday" in
  let run := stub_aevaluate (stub_evaluator raw true)
               (Some "When?") (Some "Today.") (Some ["A calendar."])
               (Some ["a.png"]) 0 in
  model_said_async id run.2 raw
  /\ exists q0 r0,
      Some "When?" = Some q0 /\ Some "Today." = Some r0
      /\ (contains_yes_ci raw ->
          run.1.1 = Ok (EvaluationResult.mk q0 r0 true 1.0%float raw))
      /\ (~ contains_yes_ci raw ->
          run.1.1 = if _raise_error (stub_evaluator raw true)
                    then Raise (ValueError "The response is invalid")
                    else Ok (EvaluationResult.mk q0 r0 false 0.0%float raw)).
Proof.
  intros raw run.
  assert (model_said_async id run.2 raw) as Hsaid by (vm_compute; reflexivity).
  split; [exact Hsaid |].
  apply (aevaluate_verdict id stub_load_data stub_get_nodes
           (stub_evaluator raw true)
           (Some "When?") (Some "Today.") (Some ["A calendar."])
           (Some ["a.png"]) None (∅ : gmap string nat) 0
           run.1.1 run.1.2 run.2 raw);
    [vm_compute; reflexivity | exact Hsaid].
Defined.

Lemma refine_template_inert_witness :
  let self := stub_evaluator "YES" false in
  let prompts : PromptDictType :=
    {[ "refine_template" := other_template; "unknown" := failing_template ]} in
  prompts !! "eval_template" = None
  /\ _refine_template (_update_prompts self prompts) = other_template
  /\ evaluate (Any := nat) id stub_load_data stub_get_nodes
       (_update_prompts self prompts)
       (Some "Is this a cat?") (Some "Yes.") (Some ["A cat."])
       (Some ["a.png"]) None ∅
     = evaluate (Any := nat) id stub_load_data stub_get_nodes self
         (Some "Is this a cat?") (Some "Yes.") (Some ["A cat."])
         (Some ["a.png"]) None ∅.
Proof.
  intros self prompts.
  assert (prompts !! "eval_template" = None) as Hnone
    by (vm_compute; reflexivity).
  split; [exact Hnone |]. split; [vm_compute; reflexivity |].
  exact (proj1 (refine_template_inert id stub_load_data stub_get_nodes
                  self prompts
                  (Some "Is this a cat?") (Some "Yes.") (Some ["A cat."])
                  (Some ["a.png"]) None (∅ : gmap string nat) Hnone)).
Defined.

Lemma updated_eval_template_formats_prompt_witness :
  format other_template (context_str ["A cat."; "A mat."])
    (evaluation_query_str "Is this a cat?" "Yes.")
  = Ok ("A cat." +:+ nl +:+ nl +:+ "A mat.").
Proof.
  pose (self := stub_evaluator "YES" false).
  pose (prompts := ({[ "eval_template" := other_template ]} : PromptDictType)).
  pose (run := stub_evaluate (_update_prompts self prompts)
                 (Some "Is this a cat?") (Some "Yes.")
                 (Some ["A cat."; "A mat."]) (Some ["a.png"]) 0).
  apply (updated_eval_template_formats_prompt id stub_load_data stub_get_nodes
           self prompts other_template "Is this a cat?" "Yes."
           ["A cat."; "A mat."] (Some ["a.png"]) None (∅ : gmap string nat)
           0 run.1.1 run.1.2 run.2 _ ["a.png"] (Ok "YES")).
  - vm_compute. reflexivity.
  - vm_compute. reflexivity.
  - vm_compute. right. right. left. reflexivity.
Defined.

Lemma get_prompts_after_update_witness :
  let self := stub_evaluator "YES" false in
  let prompts : PromptDictType :=
    {[ "eval_template" := other_template; "unknown" := failing_template ]} in
  ~ prompt_key "unknown"
  /\ _get_prompts (_update_prompts self prompts) !! "unknown" = None
  /\ _get_prompts (_update_prompts self prompts) !! "eval_template"
     = Some other_template.
Proof.
  intros self prompts.
  assert (~ prompt_key "unknown") as Hforeign by (intros [? | ?]; discriminate).
  pose proof (get_prompts_after_update self prompts) as (Heval & _ & Hother).
  split; [exact Hforeign |]. split; [exact (Hother _ Hforeign) |].
  exact Heval.
Defined.

Lemma context_str_app_witness :
  context_str (["Paris is in France."] ++ ["The Eiffel Tower is in Paris."])
  = context_str ["Paris is in France."] +:+ nl +:+ nl
    +:+ context_str ["The Eiffel Tower is in Paris."].
Proof.
  apply (context_str_app ["Paris is in France."]
           ["The Eiffel Tower is in Paris."]); discriminate.
Defined.

Lemma verdict_keeps_passing_witness :
  let self := stub_evaluator "" true in
  verdict (Document := string) self ("No. " +:+ "YES" +:+ "terday") 0
  = (Ok true, 0, [])
  /\ verdict (Document := string) self (lower "YES") 0 = (Ok true, 0, []).
Proof.
  intros self.
  apply (verdict_keeps_passing self "YES" "No. " "terday" 0).
  vm_compute. reflexivity.
Defined.

Lemma init_uses_supplied_model_witness :
  (exists self,
      __init__ stub_PromptTemplate no_api_key (fun _ => true) (fun _ => true)
        (Some (stub_llm "YES")) true None None = Ok self
      /\ _multi_modal_llm self = stub_llm "YES"
      /\ _raise_error self = true)
  /\ __init__ stub_PromptTemplate no_api_key (fun _ => true) (fun _ => true)
       None true None None
     = Raise (UpstreamError "no API key").
Proof.
  pose proof (init_uses_supplied_model stub_PromptTemplate no_api_key
                (fun _ => true) (fun _ => true) (stub_llm "YES")
                true None None) as [Hsupplied Hdefault].
  split.
  - apply Hsupplied. reflexivity.
  - apply Hdefault. reflexivity.
Defined.

Lemma init_is_default_then_update_witness :
  let init := __init__ stub_PromptTemplate stub_OpenAIMultiModal
                (fun _ => true) (fun _ => true) None false in
  let self0 := {| _multi_modal_llm := stub_llm "YES";
                  _raise_error := false;
                  _eval_template := stub_PromptTemplate DEFAULT_EVAL_TEMPLATE_str;
                  _refine_template :=
                    stub_PromptTemplate DEFAULT_REFINE_TEMPLATE_str |} in
  init None None = Ok self0
  /\ init (Some (inr other_template)) (Some (inr stub_template))
     = Ok (_update_prompts self0
             {[ "eval_template" := other_template;
                "refine_template" := stub_template ]})
  /\ init (Some (inl "")) None
     = Ok (_update_prompts self0
             {[ "eval_template" := stub_PromptTemplate "" ]}).
Proof.
  intros init self0.
  assert (init None None = Ok self0) as Hdefault by reflexivity.
  pose proof (init_is_default_then_update stub_PromptTemplate
                stub_OpenAIMultiModal (fun _ => true) (fun _ => true)
                None false other_template stub_template self0
                Hdefault eq_refl eq_refl) as [Hobjects Htext].
  split; [exact Hdefault |]. split; [exact Hobjects | exact (Htext "")].
Defined.

(** ** The revised claims on the stub environment *)

Lemma context_block_blank_line_joined_witness :
  exists out,
    stub_evaluate (stub_evaluator "YES" false)
      (Some "Where is the tower?") (Some "In Paris.")
      (Some ["Paris is in France."; "The Eiffel Tower is in Paris."])
      (Some ["tower.png"]) 0
    = (out, 1,
       [LoadData "tower.png" (Ok ["tower.png"]);
        GetNodes ["tower.png"] (Ok ["tower.png"]);
        Complete ("Question: Where is the tower?" +:+ nl
                  +:+ "Response: In Paris." +:+ nl
                  +:+ "Paris is in France." +:+ nl +:+ nl
                  +:+ "The Eiffel Tower is in Paris.")
          ["tower.png"] (Ok "YES")]).
Proof.
  apply (proj1 (proj2 (proj2 (context_block_blank_line_joined
                                (Backend := nat) (Any := nat)
                                id stub_load_data stub_get_nodes)))
           (stub_evaluator "YES" false) "Where is the tower?" "In Paris."
           ["Paris is in France."; "The Eiffel Tower is in Paris."]
           ["tower.png"] [["tower.png"]] ["tower.png"] None ∅ 0
           ("Question: Where is the tower?" +:+ nl
            +:+ "Response: In Paris." +:+ nl
            +:+ "Paris is in France." +:+ nl +:+ nl
            +:+ "The Eiffel Tower is in Paris.")).
  - reflexivity.
  - discriminate.
  - repeat constructor.
  - reflexivity.
Defined.


